(** * Help-desk ticket API: a shallow embedding of [server.js] and [db.js]

    The development models the four request handlers of the Express
    application ([GET], [POST], [PUT] and [DELETE] on [/api/tickets]) as
    pure functions over an explicit store, together with the pieces of
    the JavaScript runtime they rely on ([parseInt], truthiness, the
    [Date] conversions and [Array.prototype.sort]).

    Conventions of the embedding:
    - a JavaScript number that is an integer is a [Z]; [NaN] is [None]
      in an [option Z].  Ticket ids are clock readings in milliseconds,
      far inside the range where doubles are exact;
    - a string is a [string] read as a sequence of code units below 256;
    - [undefined] is [None] in an [option]; JSON [null] is [JNull];
    - the value kept under the Redis key is represented by the ticket
      array it encodes ([JSON.parse] of [JSON.stringify]). *)

From Stdlib Require Import ZArith Ascii String List Sorted Permutation Lia.
From stdpp Require Import base tactics option list sorting.

Local Open Scope string_scope.
Local Open Scope list_scope.
Local Open Scope Z_scope.

(** ** JSON values and JavaScript truthiness *)

#[warnings="-register-all"]
Inductive JValue : Type :=
| JNull
| JBool (b : bool)
| JNum (n : Z)
| JStr (s : string)
| JArr (items : list JValue)
| JObj (members : list (string * JValue)).

(** [ToBoolean] on a defined value: [null], [false], [0] and the empty
    string are falsy, every array and object is truthy. *)
Definition truthy (v : JValue) : bool :=
  match v with
  | JNull => false
  | JBool b => b
  | JNum n => negb (n =? 0)
  | JStr s => negb (String.eqb s "")
  | JArr _ => true
  | JObj _ => true
  end.

(** [!x] for a destructured body field, [undefined] included. *)
Definition js_not (x : option JValue) : bool :=
  match x with
  | None => true
  | Some v => negb (truthy v)
  end.

(** [x || d]: the left operand when it is truthy, otherwise [d]. *)
Definition js_or (x : option JValue) (d : JValue) : JValue :=
  match x with
  | Some v => if truthy v then v else d
  | None => d
  end.

(** ** [parseInt] with the default radix

    The embedding returns the integer the digits denote.  The engine
    returns the double nearest to it ([nearest_double] below), which
    is that same integer
    whenever it is below 2^53 in absolute value, and is never below
    2^53 otherwise.  Statements that compare the parsed number with a
    stored id therefore bound the ids involved by 2^53
    ([safe_integer]), or pin the parsed number to a stored id. *)

Definition code (c : ascii) : Z := Z.of_N (N_of_ascii c).

(** White space and line terminators among the code units below 256. *)
Definition is_white (c : ascii) : bool :=
  let n := code c in
  (n =? 9) || (n =? 10) || (n =? 11) || (n =? 12) || (n =? 13)
  || (n =? 32) || (n =? 160).

Fixpoint skip_white (s : string) : string :=
  match s with
  | String c rest => if is_white c then skip_white rest else s
  | EmptyString => s
  end.

(** Value of a code unit as a digit: [0-9], then letters of either case
    from ten upwards. *)
Definition digit_value (c : ascii) : option Z :=
  let n := code c in
  if (48 <=? n) && (n <=? 57) then Some (n - 48)
  else if (97 <=? n) && (n <=? 122) then Some (n - 87)
  else if (65 <=? n) && (n <=? 90) then Some (n - 55)
  else None.

(** Longest prefix of radix-[R] digits; [None] when it is empty. *)
Fixpoint digits_prefix (R : Z) (s : string) (acc : option Z) : option Z :=
  match s with
  | String c rest =>
      match digit_value c with
      | Some d =>
          if d <? R
          then digits_prefix R rest (Some (default 0 acc * R + d))
          else acc
      | None => acc
      end
  | EmptyString => acc
  end.

Definition is_x (c : ascii) : bool := (code c =? 120) || (code c =? 88).

Definition parseInt (input : string) : option Z :=
  let s := skip_white input in
  let '(sign, s) :=
    match s with
    | String c rest =>
        if code c =? 45 then (-1, rest)
        else if code c =? 43 then (1, rest)
        else (1, s)
    | EmptyString => (1, s)
    end in
  let '(R, s) :=
    match s with
    | String z (String x rest) =>
        if (code z =? 48) && is_x x then (16, rest) else (10, s)
    | _ => (10, s)
    end in
  match digits_prefix R s None with
  | Some m => Some (sign * m)
  | None => None
  end.

(** ** Dates: [toISOString] and the time value of [new Date(string)]

    A time value is a number of milliseconds since the epoch, in UTC.
    The calendar arithmetic is the proleptic Gregorian one. *)

Definition msPerDay : Z := 86400000.

(** Year, month and day of the day numbered [days] from 1970-01-01. *)
Definition civil_from_days (days : Z) : Z * Z * Z :=
  let z := days + 719468 in
  let era := z / 146097 in
  let doe := z - era * 146097 in
  let yoe := (doe - doe / 1460 + doe / 36524 - doe / 146096) / 365 in
  let doy := doe - (365 * yoe + yoe / 4 - yoe / 100) in
  let mp := (5 * doy + 2) / 153 in
  let d := doy - (153 * mp + 2) / 5 + 1 in
  let m := if mp <? 10 then mp + 3 else mp - 9 in
  let y := yoe + era * 400 in
  (if m <=? 2 then y + 1 else y, m, d).

(** Day number of a calendar date, the inverse of [civil_from_days]. *)
Definition days_from_civil (y m d : Z) : Z :=
  let y' := if m <=? 2 then y - 1 else y in
  let era := y' / 400 in
  let yoe := y' - era * 400 in
  let doy := (153 * (if 2 <? m then m - 3 else m + 9) + 2) / 5 + d - 1 in
  let doe := yoe * 365 + yoe / 4 - yoe / 100 + doy in
  era * 146097 + doe - 719468.

Definition digit_char (n : Z) : ascii := ascii_of_N (Z.to_N (48 + n)).

(** [n] in decimal, zero-padded to [w] digits. *)
Fixpoint pad (w : nat) (n : Z) : string :=
  match w with
  | O => EmptyString
  | S w' => String.append (pad w' (n / 10)) (String (digit_char (n mod 10)) EmptyString)
  end.

(** [Date.prototype.toISOString]: [YYYY-MM-DDTHH:mm:ss.sssZ], with a
    signed six-digit year outside 0..9999. *)
Definition Date_toISOString (tv : Z) : string :=
  let '(y, m, d) := civil_from_days (tv / msPerDay) in
  let ms := tv mod msPerDay in
  let year :=
    if (0 <=? y) && (y <=? 9999) then pad 4 y
    else if y <? 0 then String.append "-" (pad 6 (- y))
    else String.append "+" (pad 6 y) in
  String.concat ""
    [year; "-"; pad 2 m; "-"; pad 2 d; "T";
     pad 2 (ms / 3600000); ":"; pad 2 (ms / 60000 mod 60); ":";
     pad 2 (ms / 1000 mod 60); "."; pad 3 (ms mod 1000); "Z"].

Definition dec_digit (c : ascii) : option Z :=
  let n := code c in
  if (48 <=? n) && (n <=? 57) then Some (n - 48) else None.

Fixpoint dec_number (cs : list ascii) (acc : Z) : option Z :=
  match cs with
  | [] => Some acc
  | c :: cs' =>
      match dec_digit c with
      | Some d => dec_number cs' (acc * 10 + d)
      | None => None
      end
  end.

Definition leap_year (y : Z) : bool :=
  (y mod 4 =? 0) && (negb (y mod 100 =? 0) || (y mod 400 =? 0)).

Definition days_in_month (y m : Z) : Z :=
  if m =? 2 then (if leap_year y then 29 else 28)
  else if (m =? 4) || (m =? 6) || (m =? 9) || (m =? 11) then 30
  else 31.

(** The time value of [new Date(s)], [None] standing for [NaN] (an
    invalid date).  The embedding reads the one layout that
    [toISOString] writes for years 0..9999, with every element inside
    its legal range; any other string is treated as invalid, so the
    results below assume nothing about how the engine reads them. *)
Definition Date_parse (s : string) : option Z :=
  match list_ascii_of_string s with
  | [y1; y2; y3; y4; c1; m1; m2; c2; d1; d2; c3;
     h1; h2; c4; n1; n2; c5; s1; s2; c6; f1; f2; f3; c7] =>
      if (code c1 =? 45) && (code c2 =? 45) && (code c3 =? 84)
         && (code c4 =? 58) && (code c5 =? 58) && (code c6 =? 46)
         && (code c7 =? 90)
      then
        y ← dec_number [y1; y2; y3; y4] 0;
        m ← dec_number [m1; m2] 0;
        d ← dec_number [d1; d2] 0;
        h ← dec_number [h1; h2] 0;
        mi ← dec_number [n1; n2] 0;
        sec ← dec_number [s1; s2] 0;
        ms ← dec_number [f1; f2; f3] 0;
        if (1 <=? m) && (m <=? 12) && (1 <=? d) && (d <=? days_in_month y m)
           && (h <=? 23) && (mi <=? 59) && (sec <=? 59)
        then Some (days_from_civil y m d * msPerDay
                   + h * 3600000 + mi * 60000 + sec * 1000 + ms)
        else None
      else None
  | _ => None
  end.

(** ** Arrays: [findIndex], [filter] and [sort] *)

Section Arrays.
Context {A : Type}.

(** [Array.prototype.findIndex]; [None] stands for the result [-1]. *)
Fixpoint findIndex (p : A → bool) (l : list A) : option nat :=
  match l with
  | [] => None
  | x :: l' => if p x then Some O else S <$> findIndex p l'
  end.

(** [SortCompare]: a comparator result of [NaN] counts as [+0]. *)
Definition SortCompare (comparefn : A → A → option Z) (x y : A) : Z :=
  default 0 (comparefn x y).

Fixpoint sort_insert (comparefn : A → A → option Z) (x : A) (l : list A)
  : list A :=
  match l with
  | [] => [x]
  | y :: l' =>
      if 0 <? SortCompare comparefn x y
      then y :: sort_insert comparefn x l'
      else x :: l
  end.

(** [Array.prototype.sort] is a stable sort.  For a consistent
    comparator its result is fixed by the language definition: the
    elements in comparator order, equal ones in their original order.
    That result is computed here by stable insertion. *)
Definition Array_sort (comparefn : A → A → option Z) (l : list A) : list A :=
  foldr (sort_insert comparefn) [] l.
End Arrays.

(** Subtraction of numbers, with [NaN] absorbing. *)
Definition num_sub (a b : option Z) : option Z :=
  match a, b with
  | Some x, Some y => Some (x - y)
  | _, _ => None
  end.

(** [a === b] for a number [a] and a possibly-[NaN] number [b]. *)
Definition strict_eq_num (a : Z) (b : option Z) : bool :=
  match b with
  | Some n => a =? n
  | None => false
  end.

(** ** Tickets and request bodies *)

Module Ticket.
Record t : Type := mk {
  id : Z;
  title : JValue;
  description : JValue;
  type : JValue;
  area : JValue;
  status : JValue;
  created_at : string
}.

Definition set_title (v : JValue) (x : t) : t :=
  mk (id x) v (description x) (type x) (area x) (status x) (created_at x).
Definition set_description (v : JValue) (x : t) : t :=
  mk (id x) (title x) v (type x) (area x) (status x) (created_at x).
Definition set_type (v : JValue) (x : t) : t :=
  mk (id x) (title x) (description x) v (area x) (status x) (created_at x).
Definition set_area (v : JValue) (x : t) : t :=
  mk (id x) (title x) (description x) (type x) v (status x) (created_at x).
Definition set_status (v : JValue) (x : t) : t :=
  mk (id x) (title x) (description x) (type x) (area x) v (created_at x).
End Ticket.

(** The fields a handler destructures from [req.body]; [None] is a
    field that is absent ([undefined]). *)
Module Body.
Record t : Type := mk {
  title : option JValue;
  description : option JValue;
  type : option JValue;
  area : option JValue;
  status : option JValue
}.

Definition empty : t := mk None None None None None.

(** The body [{status: v}]. *)
Definition status_only (v : JValue) : t := mk None None None None (Some v).
End Body.

(** ** The store adapter ([db.js]) *)

(** The Redis client: whether commands go through, and the value under
    the key [tickets] ([None] when the key is absent). *)
Record Store : Type := mkStore {
  connected : bool;
  stored : option (list Ticket.t)
}.

(** Outcome of an awaited promise. *)
Inductive Outcome (A : Type) : Type :=
| Resolved (a : A)
| Rejected (message : string).
Arguments Resolved {A} a.
Arguments Rejected {A} message.

(** A command sent on a closed client rejects.  The model gives the
    rejection the message of the client's closed-client error; the
    handlers never look at the message, they pass it on
    ([await_or_500]). *)
Definition client_closed : string := "The client is closed".

Definition getTickets (st : Store) : Outcome (list Ticket.t) :=
  if connected st
  then Resolved (match stored st with Some data => data | None => [] end)
  else Rejected client_closed.

Definition saveTickets (tickets : list Ticket.t) (st : Store) : Outcome Store :=
  if connected st
  then Resolved (mkStore true (Some tickets))
  else Rejected client_closed.

(** ** Responses *)

Inductive Payload : Type :=
| TicketArray (tickets : list Ticket.t)
| TicketObject (ticket : Ticket.t)
| ErrorObject (error : string)
| MessageObject (message : string).

Record Response : Type := respond {
  statusCode : Z;
  json : Payload
}.

(** ** The request handlers ([server.js])

    A handler maps the store before the request to the response and the
    store after it.  [await_or_500] is the [try]/[catch] around every
    handler body: a rejected store call ends the request with status
    500 and the error's message, the store left as it was. *)

Definition await_or_500 {A : Type} (st : Store) (o : Outcome A)
    (k : A → Response * Store) : Response * Store :=
  match o with
  | Resolved a => k a
  | Rejected message => (respond 500 (ErrorObject message), st)
  end.

Notation "'await' x ← o 'within' st ; k" :=
  (await_or_500 st o (λ x, k))
  (at level 10, x name, o at level 10, st at level 0, k at level 200,
   only parsing).

(** [(a, b) => new Date(b.created_at) - new Date(a.created_at)] *)
Definition by_created_at_desc (a b : Ticket.t) : option Z :=
  num_sub (Date_parse (Ticket.created_at b)) (Date_parse (Ticket.created_at a)).

(** [GET /api/tickets] *)
Definition get_tickets (st : Store) : Response * Store :=
  await tickets ← getTickets st within st;
  (respond 200 (TicketArray (Array_sort by_created_at_desc tickets)), st).

(** The object literal of the create handler.  [now_id] is the reading
    of [Date.now()] and [now_created] that of the later [new Date()]. *)
Definition newTicket (title : JValue) (body : Body.t) (now_id now_created : Z)
  : Ticket.t :=
  Ticket.mk now_id
            title
            (js_or (Body.description body) (JStr ""))
            (js_or (Body.type body) (JStr "General Inquiry"))
            (js_or (Body.area body) (JStr "IT Support"))
            (JStr "open")
            (Date_toISOString now_created).

(** [POST /api/tickets].  [if (!title)] rejects an absent title and a
    falsy one alike. *)
Definition post_ticket (body : Body.t) (now_id now_created : Z) (st : Store)
  : Response * Store :=
  match Body.title body with
  | Some title =>
      if negb (truthy title)
      then (respond 400 (ErrorObject "Title is required"), st)
      else
        let created := newTicket title body now_id now_created in
        await tickets ← getTickets st within st;
        await st' ← saveTickets (tickets ++ [created]) st within st;
        (respond 201 (TicketObject created), st')
  | None => (respond 400 (ErrorObject "Title is required"), st)
  end.

Definition validStatuses : list string := ["open"; "in-progress"; "closed"].

(** [validStatuses.includes(status)]: only a string can be equal to an
    element of the array. *)
Definition includes (l : list string) (v : JValue) : bool :=
  match v with
  | JStr s => existsb (String.eqb s) l
  | _ => false
  end.

(** [if (x !== undefined) target.field = x] *)
Definition assign_if_defined (x : option JValue)
    (set : JValue → Ticket.t → Ticket.t) (target : Ticket.t) : Ticket.t :=
  match x with
  | Some v => set v target
  | None => target
  end.

(** The field assignments of the update handler, in source order. *)
Definition apply_update (body : Body.t) (ticket : Ticket.t) : Ticket.t :=
  let ticket := assign_if_defined (Body.title body) Ticket.set_title ticket in
  let ticket :=
    assign_if_defined (Body.description body) Ticket.set_description ticket in
  let ticket := assign_if_defined (Body.type body) Ticket.set_type ticket in
  let ticket := assign_if_defined (Body.area body) Ticket.set_area ticket in
  match Body.status body with
  | Some status =>
      if includes validStatuses status
      then Ticket.set_status status ticket
      else ticket
  | None => ticket
  end.

(** [t => t.id === parseInt(id)] *)
Definition has_id (id : string) (t : Ticket.t) : bool :=
  strict_eq_num (Ticket.id t) (parseInt id).

Definition not_found (st : Store) : Response * Store :=
  (respond 404 (ErrorObject "Ticket not found"), st).

(** [PUT /api/tickets/:id] *)
Definition put_ticket (id : string) (body : Body.t) (st : Store)
  : Response * Store :=
  await tickets ← getTickets st within st;
  match findIndex (has_id id) tickets with
  | None => not_found st
  | Some ticketIndex =>
      match tickets !! ticketIndex with
      | Some ticket =>
          let updated := apply_update body ticket in
          await st' ← saveTickets (<[ticketIndex := updated]> tickets) st
            within st;
          (respond 200 (TicketObject updated), st')
      | None => not_found st (* never taken, see [findIndex_lookup] *)
      end
  end.

(** [DELETE /api/tickets/:id] *)
Definition delete_ticket (id : string) (st : Store) : Response * Store :=
  await tickets ← getTickets st within st;
  match findIndex (has_id id) tickets with
  | None => not_found st
  | Some _ =>
      let tickets := List.filter (λ t, negb (has_id id t)) tickets in
      await st' ← saveTickets tickets st within st;
      (respond 200 (MessageObject "Ticket deleted successfully"), st')
  end.

(** ** Runs of the service *)

(** Clock readings from 0000-01-01T00:00:00.000Z to
    9999-12-31T23:59:59.999Z, the instants [toISOString] writes with a
    four-digit year. *)
Definition four_digit_year (tv : Z) : Prop :=
  -62167219200000 ≤ tv ≤ 253402300799999.

(** A request together with the clock readings its handler takes. *)
Inductive Request : Type :=
| ListTickets
| CreateTicket (body : Body.t) (now_id now_created : Z)
| UpdateTicket (id : string) (body : Body.t)
| DeleteTicket (id : string).

Definition handle (r : Request) (st : Store) : Response * Store :=
  match r with
  | ListTickets => get_tickets st
  | CreateTicket body now_id now_created =>
      post_ticket body now_id now_created st
  | UpdateTicket id body => put_ticket id body st
  | DeleteTicket id => delete_ticket id st
  end.

(** The stores the service can be in: it starts connected with the key
    absent, and every request is served at a clock reading
    [toISOString] writes with a four-digit year. *)
Inductive reachable : Store → Prop :=
| reachable_start : reachable (mkStore true None)
| reachable_step st r :
    reachable st →
    (∀ body now_id now_created,
       r = CreateTicket body now_id now_created →
       four_digit_year now_created) →
    reachable (handle r st).2.

(** ** Vocabulary of the statements *)

(** The ids of a collection, in order. *)
Definition ids (tickets : list Ticket.t) : list Z := Ticket.id <$> tickets.

(** The creation instant of a ticket, as [new Date(t.created_at)]
    reads it. *)
Definition created (t : Ticket.t) : option Z :=
  Date_parse (Ticket.created_at t).

(** Every created_at of the collection is a valid date. *)
Definition dates_valid (tickets : list Ticket.t) : Prop :=
  Forall (λ t, is_Some (created t)) tickets.

(** [a] was created no earlier than [b], both dates being valid. *)
Definition not_older (a b : Ticket.t) : Prop :=
  ∃ ta tb, created a = Some ta ∧ created b = Some tb ∧ tb ≤ ta.

(** No ticket of the collection has the empty string as title. *)
Definition titles_nonempty (tickets : list Ticket.t) : Prop :=
  Forall (λ t, Ticket.title t ≠ JStr "") tickets.



(** ** Sample requests and stores used by the examples *)

Definition printer_ticket : Ticket.t :=
  Ticket.mk 1700000000000 (JStr "Printer jam") (JStr "Tray 2")
            (JStr "Hardware") (JStr "IT Support") (JStr "open")
            "2023-11-14T22:13:20.000Z".

Definition vpn_ticket : Ticket.t :=
  Ticket.mk 1700000060000 (JStr "VPN down") (JStr "")
            (JStr "General Inquiry") (JStr "Network") (JStr "in-progress")
            "2023-11-14T22:14:20.000Z".

Definition badge_ticket : Ticket.t :=
  Ticket.mk 1700000120000 (JStr "Badge lost") (JStr "")
            (JStr "General Inquiry") (JStr "Facilities") (JStr "open")
            "2023-11-14T22:15:20.000Z".

Definition sample_store : Store :=
  mkStore true (Some [vpn_ticket; printer_ticket; badge_ticket]).

Definition empty_store : Store := mkStore true None.

Definition close_request : Body.t := Body.status_only (JStr "closed").

Definition title_only (s : string) : Body.t :=
  Body.mk (Some (JStr s)) None None None None.


Definition blank_type_and_area_request : Body.t :=
  Body.mk (Some (JStr "Badge lost")) (Some (JStr "at the gate"))
          (Some (JStr "")) (Some (JStr "")) None.

Definition blank_title_request : Body.t :=
  Body.mk (Some (JStr "")) None None None None.

Definition printer_created : Ticket.t :=
  Ticket.mk 1700000000000 (JStr "Printer jam") (JStr "")
            (JStr "General Inquiry") (JStr "IT Support") (JStr "open")
            "2023-11-14T22:13:20.000Z".

Definition vpn_created : Ticket.t :=
  newTicket (JStr "VPN down") (title_only "VPN down")
    1700000000000 1700000000000.

(** The store after a first create on the empty store. *)
Definition store_after_first_create : Store :=
  (post_ticket (title_only "Printer jam") 1700000000000 1700000000000
     empty_store).2.

(** The store after a second create in the same millisecond as the
    first. *)
Definition store_after_second_create : Store :=
  (post_ticket (title_only "VPN down") 1700000000000 1700000000000
     store_after_first_create).2.

(** ** More vocabulary: statuses and batches of creates *)

(** Every status of the collection is one of the three the update
    handler accepts. *)
Definition statuses_valid (tickets : list Ticket.t) : Prop :=
  Forall (λ t, includes validStatuses (Ticket.status t) = true) tickets.

(** [Number.isSafeInteger]: the integers every one of which is a
    double of its own.  Clock readings are among them: a time value is
    at most 8.64e15 in absolute value. *)
Definition safe_integer (n : Z) : Prop := - 2 ^ 53 < n < 2 ^ 53.

(** Every id of the collection is a safe integer. *)
Definition ids_safe (tickets : list Ticket.t) : Prop :=
  Forall (λ t, safe_integer (Ticket.id t)) tickets.

(** The time values a [Date] can hold. *)
Definition time_value (tv : Z) : Prop :=
  - 8640000000000000 ≤ tv ≤ 8640000000000000.

(** The double nearest to the integer [n], ties to the even
    significand: what the engine keeps of a number it reads.  An
    integer below 2^53 in absolute value is a double of its own; a
    larger one keeps its 53 leading bits.  (Beyond the largest double
    the engine gives [Infinity]; the definition goes on rounding
    there.) *)
Definition nearest_double (n : Z) : Z :=
  let a := Z.abs n in
  if a <? 2 ^ 53 then n
  else
    let e := Z.log2 a - 52 in
    let q := a / 2 ^ e in
    let r := a mod 2 ^ e in
    let up := (2 * r >? 2 ^ e) || ((2 * r =? 2 ^ e) && Z.odd q) in
    Z.sgn n * ((if up then q + 1 else q) * 2 ^ e).

(** A create request with its two clock readings. *)
Definition CreateCall : Type := Body.t * Z * Z.

(** The store after serving the create requests one after the other. *)
Definition create_all (calls : list CreateCall) (st : Store) : Store :=
  foldl (λ st call, (post_ticket call.1.1 call.1.2 call.2 st).2) st calls.

(** ** Numbers in URLs

    The clients build the path of an update or a delete with the
    template literal [`${API_URL}/${id}`]; the server reads the segment
    back with [parseInt]. *)

(** The decimal digits of [n >= 0] in front of [acc], most significant
    first; [fuel] bounds the number of digits. *)
Fixpoint decimal_digits (fuel : nat) (n : Z) (acc : string) : string :=
  match fuel with
  | O => acc
  | S fuel' =>
      let acc' := String (digit_char (n mod 10)) acc in
      if n / 10 =? 0 then acc' else decimal_digits fuel' (n / 10) acc'
  end.

(** [Number.prototype.toString] on a safe integer (below 2^53 in
    absolute value), where every integer is a double of its own: its
    decimal digits, after a minus sign when negative.  Above that
    bound the engine prints the shortest digits that read back as the
    same double, which this definition does not follow; the statements
    about paths keep to safe integers. *)
Definition Number_toString (n : Z) : string :=
  let fuel := S (Z.to_nat (Z.log2 (Z.abs n))) in
  if n <? 0
  then String "-"%char (decimal_digits fuel (- n) EmptyString)
  else decimal_digits fuel n EmptyString.

(** The path segment written for [${id}]: [null] prints as ["null"]. *)
Definition id_segment (id : option Z) : string :=
  match id with
  | Some n => Number_toString n
  | None => "null"
  end.

(** ** The page controller (the script behind the ticket grid)

    Only the state the script keeps between events is modelled: the
    cache [allTickets], the active filter and the edit mode.  A [fetch]
    of the API is the call of the handler it reaches; what the script
    writes to the page is left out. *)

Record Client : Type := mkClient {
  allTickets : list Ticket.t;
  currentFilter : string;
  isEditing : bool;
  editingId : option Z
}.

(** [response.ok]: a status from 200 to 299. *)
Definition response_ok (response : Response) : bool :=
  (200 <=? statusCode response) && (statusCode response <=? 299).

Definition with_tickets (tickets : list Ticket.t) (c : Client) : Client :=
  mkClient tickets (currentFilter c) (isEditing c) (editingId c).

(** [fetchTickets]: on a failed request the cache is left as it is. *)
Definition fetchTickets (w : Client * Store) : Client * Store :=
  let '(response, st') := get_tickets w.2 in
  if response_ok response
  then
    match json response with
    | TicketArray tickets => (with_tickets tickets w.1, st')
    | _ => (w.1, st') (* a list answer always carries an array *)
    end
  else (w.1, st').

(** [closeModal] *)
Definition closeModal (c : Client) : Client :=
  mkClient (allTickets c) (currentFilter c) false None.

(** [openModal(ticketId = null)]: [if (ticketId)] takes the edit branch
    for a number other than 0. *)
Definition openModal (ticketId : option Z) (c : Client) : Client :=
  match ticketId with
  | Some n =>
      if n =? 0
      then mkClient (allTickets c) (currentFilter c) false None
      else mkClient (allTickets c) (currentFilter c) true (Some n)
  | None => mkClient (allTickets c) (currentFilter c) false None
  end.

(** The body [{ title, description, type, area }] built from the form
    fields, which are strings. *)
Definition form_body (title description type area : string) : Body.t :=
  Body.mk (Some (JStr title)) (Some (JStr description)) (Some (JStr type))
          (Some (JStr area)) None.

(** The first half of [handleFormSubmit], up to the awaited [fetch]:
    the request goes to the update handler or to the create handler
    according to the edit mode at the time of the submit.  The form
    values are parameters, and so are the clock readings the server
    takes if the request is a create. *)
Definition formRequest (title description type area : string)
    (now_id now_created : Z) (c : Client) (st : Store) : Response * Store :=
  let body := form_body title description type area in
  if isEditing c
  then put_ticket (id_segment (editingId c)) body st
  else post_ticket body now_id now_created st.

(** The second half of [handleFormSubmit], after the awaits: [c] is
    the state of the page when the response arrives.  The script reads
    [isEditing] and [editingId] again here, so an event served while
    the request was pending (closing the dialog, opening it for another
    ticket) decides the branch taken. *)
Definition formResponse (response : Response) (c : Client) : Client :=
  if response_ok response
  then
    match json response with
    | TicketObject savedTicket =>
        let tickets :=
          if isEditing c
          then
            match findIndex (λ t, strict_eq_num (Ticket.id t) (editingId c))
                    (allTickets c) with
            | Some index => <[index := savedTicket]> (allTickets c)
            | None => allTickets c
            end
          else savedTicket :: allTickets c in
        closeModal (with_tickets tickets c)
    | _ => c (* a saved ticket is always an object *)
    end
  else c.

(** [handleFormSubmit] when no other event is served between the
    request and its response: the response meets the page as the submit
    left it. *)
Definition handleFormSubmit (title description type area : string)
    (now_id now_created : Z) (w : Client * Store) : Client * Store :=
  let '(response, st') :=
    formRequest title description type area now_id now_created w.1 w.2 in
  (formResponse response w.1, st').

(** [deleteTicket(id)]; [confirmed] is the answer to the [confirm]
    dialog. *)
Definition deleteTicket (id : Z) (confirmed : bool) (w : Client * Store)
  : Client * Store :=
  if negb confirmed then w
  else
    let '(response, st') := delete_ticket (id_segment (Some id)) w.2 in
    if response_ok response
    then
      (with_tickets
         (List.filter (λ t, negb (Ticket.id t =? id)) (allTickets w.1)) w.1,
       st')
    else (w.1, st').

(** [ticket.status === filter] for a filter tab's string. *)
Definition status_is (filter : string) (t : Ticket.t) : bool :=
  match Ticket.status t with
  | JStr s => String.eqb s filter
  | _ => false
  end.

(** The tickets [renderTickets] shows under a filter. *)
Definition filteredTickets (filter : string) (tickets : list Ticket.t)
  : list Ticket.t :=
  List.filter
    (λ ticket, if String.eqb filter "all" then true else status_is filter ticket)
    tickets.

(** ** [escapeHtml] of the first page script ([public/app.js]) *)

(** [s.replace(/c/g, by)] for a one-character pattern. *)
Fixpoint replace_all (c : ascii) (by_ : string) (s : string) : string :=
  match s with
  | EmptyString => EmptyString
  | String a rest =>
      if Ascii.eqb a c
      then String.append by_ (replace_all c by_ rest)
      else String a (replace_all c by_ rest)
  end.

(** The double quote character. *)
Definition dquote : ascii := ascii_of_nat 34.

(** [escapeHtml(text)] on a string: the empty string is falsy and
    returns [''], any other goes through the five replacements in
    source order. *)
Definition escapeHtml (text : string) : string :=
  if String.eqb text EmptyString then EmptyString
  else
    replace_all "'"%char "&#039;"
      (replace_all dquote "&quot;"
         (replace_all ">"%char "&gt;"
            (replace_all "<"%char "&lt;"
               (replace_all "&"%char "&amp;" text)))).

(** What the replacements amount to on one character. *)
Definition escape_char (a : ascii) : string :=
  if Ascii.eqb a "&"%char then "&amp;"
  else if Ascii.eqb a "<"%char then "&lt;"
  else if Ascii.eqb a ">"%char then "&gt;"
  else if Ascii.eqb a dquote then "&quot;"
  else if Ascii.eqb a "'"%char then "&#039;"
  else String a EmptyString.

(** The characters that open or close markup or an attribute value. *)
Definition markup_char (a : ascii) : bool :=
  Ascii.eqb a "<"%char || Ascii.eqb a ">"%char || Ascii.eqb a dquote
  || Ascii.eqb a "'"%char.

(** ** Vocabulary of the further properties *)

(** How [apply_update] treats one of the four free-text fields. *)
Definition overwritten_if_supplied (supplied : option JValue)
    (before after : JValue) : Prop :=
  match supplied with
  | Some v => after = v
  | None => after = before
  end.

(** [t] was created at the instant [tv]. *)
Definition created_at_is (tv : Z) (t : Ticket.t) : bool :=
  match created t with
  | Some v => v =? tv
  | None => false
  end.

(** A string of decimal digits. *)
Definition digit_string (s : string) : Prop :=
  Forall (λ c, 48 ≤ code c ≤ 57) (list_ascii_of_string s).

(** One pass over the text, each character replaced on its own. *)
Fixpoint escape_string (s : string) : string :=
  match s with
  | EmptyString => EmptyString
  | String a rest => String.append (escape_char a) (escape_string rest)
  end.

(** The head of the string, if any, is not the [x] of a hexadecimal
    prefix. *)
Definition head_not_x (s : string) : Prop :=
  match s with
  | EmptyString => True
  | String c _ => is_x c = false
  end.

(** ** More sample data *)

Definition fresh_client : Client := mkClient [] "all" false None.

(** The page after loading the sample store. *)
Definition loaded_client : Client :=
  mkClient [badge_ticket; vpn_ticket; printer_ticket] "all" false None.

Definition three_creates : list CreateCall :=
  [(title_only "Printer jam", 1700000000000, 1700000000001);
   (title_only "VPN down", 1700000060000, 1700000060001);
   (title_only "Badge lost", 1700000120000, 1700000120001)].

(** * Properties *)

(** ** The model on concrete inputs *)

Example parseInt_plain : parseInt "1700000000123" = Some 1700000000123.
Proof. reflexivity. Qed.
Example parseInt_trailing : parseInt " 42abc" = Some 42.
Proof. reflexivity. Qed.
Example parseInt_hex : parseInt "0x1F" = Some 31.
Proof. reflexivity. Qed.
Example parseInt_nan : parseInt "abc" = None.
Proof. reflexivity. Qed.
Example parseInt_negative : parseInt "-7" = Some (-7).
Proof. reflexivity. Qed.

Example toISOString_epoch : Date_toISOString 0 = "1970-01-01T00:00:00.000Z".
Proof. reflexivity. Qed.
Example toISOString_2023 :
  Date_toISOString 1700000000123 = "2023-11-14T22:13:20.123Z".
Proof. reflexivity. Qed.
Example toISOString_leap_day :
  Date_toISOString 1709164800000 = "2024-02-29T00:00:00.000Z".
Proof. reflexivity. Qed.
Example toISOString_before_epoch :
  Date_toISOString (-1) = "1969-12-31T23:59:59.999Z".
Proof. reflexivity. Qed.
Example Date_parse_2023 :
  Date_parse "2023-11-14T22:13:20.123Z" = Some 1700000000123.
Proof. reflexivity. Qed.
Example Date_parse_round_trip :
  Date_parse (Date_toISOString 951782400000) = Some 951782400000.
Proof. reflexivity. Qed.
Example Date_parse_bad_day : Date_parse "2023-02-30T00:00:00.000Z" = None.
Proof. reflexivity. Qed.
Example Date_parse_garbage : Date_parse "yesterday" = None.
Proof. reflexivity. Qed.

Example get_sample :
  get_tickets sample_store
  = (respond 200 (TicketArray [badge_ticket; vpn_ticket; printer_ticket]),
     sample_store).
Proof. reflexivity. Qed.

Example put_sample :
  put_ticket "1700000000000" close_request sample_store
  = (respond 200 (TicketObject (Ticket.set_status (JStr "closed") printer_ticket)),
     mkStore true
       (Some [vpn_ticket; Ticket.set_status (JStr "closed") printer_ticket;
              badge_ticket])).
Proof. reflexivity. Qed.

Example delete_sample :
  delete_ticket "1700000060000" sample_store
  = (respond 200 (MessageObject "Ticket deleted successfully"),
     mkStore true (Some [printer_ticket; badge_ticket])).
Proof. reflexivity. Qed.

Example post_on_empty :
  post_ticket (Body.mk (Some (JStr "Printer jam")) None None None None)
              1700000000000 1700000000001 empty_store
  = (respond 201
       (TicketObject
          (Ticket.mk 1700000000000 (JStr "Printer jam") (JStr "")
             (JStr "General Inquiry") (JStr "IT Support") (JStr "open")
             "2023-11-14T22:13:20.001Z")),
     mkStore true
       (Some [Ticket.mk 1700000000000 (JStr "Printer jam") (JStr "")
                (JStr "General Inquiry") (JStr "IT Support") (JStr "open")
                "2023-11-14T22:13:20.001Z"])).
Proof. reflexivity. Qed.

Example store_down :
  get_tickets (mkStore false None)
  = (respond 500 (ErrorObject "The client is closed"), mkStore false None).
Proof. reflexivity. Qed.

(** ** Facts about the array operations *)

Section ArrayFacts.
Context {A : Type}.
Implicit Types (p : A → bool) (l : list A).

Lemma findIndex_lookup p l i :
  findIndex p l = Some i →
  ∃ x, l !! i = Some x ∧ p x = true
       ∧ ∀ j y, (j < i)%nat → l !! j = Some y → p y = false.
Proof.
  revert i. induction l as [|a l IH]; intros i; simpl; [done|].
  destruct (p a) eqn:Hpa.
  - intros [= <-]. exists a. repeat split; [done|]. intros j y Hj. lia.
  - destruct (findIndex p l) as [k|] eqn:Hk; simpl; [|done].
    intros [= <-]. destruct (IH k eq_refl) as (x & Hx & Hpx & Hfirst).
    exists x. repeat split; [done..|].
    intros [|j] y Hj; simpl.
    + by intros [= <-].
    + apply Hfirst. lia.
Qed.

Lemma findIndex_None p l :
  findIndex p l = None ↔ ∀ x, x ∈ l → p x = false.
Proof.
  induction l as [|a l IH]; simpl.
  - split; [|done]. intros _ x Hx. by apply elem_of_nil in Hx.
  - destruct (p a) eqn:Hpa.
    + split; [done|]. intros H. specialize (H a (list_elem_of_here _ _)).
      congruence.
    + destruct (findIndex p l) eqn:Hk; simpl.
      * split; [done|]. intros H.
        assert (Some n = None) as Hbad; [|done].
        apply IH. intros x Hx. apply H. by apply list_elem_of_further.
      * split; [|done]. intros _ x [->|Hx]%elem_of_cons; [done|].
        by apply IH.
Qed.

Lemma findIndex_found p l x :
  x ∈ l → p x = true → is_Some (findIndex p l).
Proof.
  intros Hx Hpx. destruct (findIndex p l) eqn:Hk; [by eexists|].
  rewrite findIndex_None in Hk. rewrite (Hk x Hx) in Hpx. done.
Qed.
End ArrayFacts.

(** ** Facts about the store adapter *)

Lemma getTickets_connected st tickets :
  getTickets st = Resolved tickets → connected st = true.
Proof. unfold getTickets. by destruct (connected st). Qed.

Lemma saveTickets_connected st tickets :
  connected st = true →
  saveTickets tickets st = Resolved (mkStore true (Some tickets)).
Proof. unfold saveTickets. by intros ->. Qed.

Lemma getTickets_after_save tickets :
  getTickets (mkStore true (Some tickets)) = Resolved tickets.
Proof. reflexivity. Qed.

(** ** Facts about [has_id] *)

Lemma has_id_true id t :
  has_id id t = true ↔ parseInt id = Some (Ticket.id t).
Proof.
  unfold has_id, strict_eq_num. destruct (parseInt id) as [n|].
  - rewrite Z.eqb_eq. split; [by intros ->|by intros [= ->]].
  - split; done.
Qed.

Lemma has_id_false id t :
  has_id id t = false ↔ parseInt id ≠ Some (Ticket.id t).
Proof.
  rewrite <-has_id_true. destruct (has_id id t); split; congruence.
Qed.

(** ** The update handler on a ticket that exists *)

Lemma put_ticket_at st tickets id body i ticket :
  getTickets st = Resolved tickets →
  findIndex (has_id id) tickets = Some i →
  tickets !! i = Some ticket →
  put_ticket id body st
  = (respond 200 (TicketObject (apply_update body ticket)),
     mkStore true (Some (<[i := apply_update body ticket]> tickets))).
Proof.
  intros Hget Hfind Hlook. unfold put_ticket. rewrite Hget. simpl.
  rewrite Hfind, Hlook.
  by rewrite (saveTickets_connected _ _ (getTickets_connected _ _ Hget)).
Qed.

Lemma put_ticket_existing st tickets id target :
  getTickets st = Resolved tickets →
  target ∈ tickets →
  parseInt id = Some (Ticket.id target) →
  ∃ i before,
    findIndex (has_id id) tickets = Some i
    ∧ tickets !! i = Some before
    ∧ Ticket.id before = Ticket.id target.
Proof.
  intros Hget Hin Hid.
  destruct (findIndex_found (has_id id) tickets target Hin) as [i Hi].
  { by apply has_id_true. }
  destruct (findIndex_lookup _ _ _ Hi) as (before & Hlook & Hmatch & _).
  exists i, before. repeat split; [done..|].
  apply has_id_true in Hmatch. congruence.
Qed.

(** C1. A PUT on an id present in the stored collection whose body is
    exactly [{status: "closed"}] answers 200 with the updated record;
    in the persisted collection that record differs from the one
    before only in [status], which is ["closed"]: its title,
    description, type, area, id and created_at are unchanged, and so is
    every other position of the collection. *)
Theorem put_closed_changes_only_status st tickets id target :
  getTickets st = Resolved tickets →
  target ∈ tickets →
  parseInt id = Some (Ticket.id target) →
  ∃ i before after tickets' st',
    put_ticket id (Body.status_only (JStr "closed")) st
    = (respond 200 (TicketObject after), st')
    ∧ getTickets st' = Resolved tickets'
    ∧ tickets !! i = Some before
    ∧ Ticket.id before = Ticket.id target
    ∧ tickets' !! i = Some after
    ∧ Ticket.status after = JStr "closed"
    ∧ Ticket.title after = Ticket.title before
    ∧ Ticket.description after = Ticket.description before
    ∧ Ticket.type after = Ticket.type before
    ∧ Ticket.area after = Ticket.area before
    ∧ Ticket.id after = Ticket.id before
    ∧ Ticket.created_at after = Ticket.created_at before
    ∧ length tickets' = length tickets
    ∧ ∀ j, j ≠ i → tickets' !! j = tickets !! j.
Proof.
  intros Hget Hin Hid.
  destruct (put_ticket_existing _ _ _ _ Hget Hin Hid)
    as (i & before & Hfind & Hlook & Hsame).
  set (after := apply_update (Body.status_only (JStr "closed")) before).
  exists i, before, after, (<[i := after]> tickets),
    (mkStore true (Some (<[i := after]> tickets))).
  split; [by apply put_ticket_at|].
  split; [done|].
  split; [done|].
  split; [done|].
  split.
  { apply list_lookup_insert_eq. by eapply lookup_lt_Some. }
  repeat split; try done.
  - apply length_insert.
  - intros j Hj. by apply list_lookup_insert_ne.
Qed.

Lemma put_closed_changes_only_status_witness :
  ∃ i before after tickets' st',
    put_ticket "1700000000000" (Body.status_only (JStr "closed")) sample_store
    = (respond 200 (TicketObject after), st')
    ∧ getTickets st' = Resolved tickets'
    ∧ [vpn_ticket; printer_ticket; badge_ticket] !! i = Some before
    ∧ Ticket.id before = Ticket.id printer_ticket
    ∧ tickets' !! i = Some after
    ∧ Ticket.status after = JStr "closed"
    ∧ Ticket.title after = Ticket.title before
    ∧ Ticket.description after = Ticket.description before
    ∧ Ticket.type after = Ticket.type before
    ∧ Ticket.area after = Ticket.area before
    ∧ Ticket.id after = Ticket.id before
    ∧ Ticket.created_at after = Ticket.created_at before
    ∧ length tickets' = length [vpn_ticket; printer_ticket; badge_ticket]
    ∧ ∀ j, j ≠ i →
        tickets' !! j = [vpn_ticket; printer_ticket; badge_ticket] !! j.
Proof.
  apply (put_closed_changes_only_status sample_store
           [vpn_ticket; printer_ticket; badge_ticket]
           "1700000000000" printer_ticket).
  - reflexivity.
  - apply list_elem_of_further, list_elem_of_here.
  - reflexivity.
Defined.

(** A rejected status leaves the status field alone, whatever else the
    body carries. *)
Lemma apply_update_invalid_status body ticket v :
  Body.status body = Some v →
  includes validStatuses v = false →
  Ticket.status (apply_update body ticket) = Ticket.status ticket.
Proof.
  intros Hst Hbad. unfold apply_update. rewrite Hst, Hbad.
  by destruct (Body.title body), (Body.description body),
       (Body.type body), (Body.area body).
Qed.

Lemma includes_validStatuses v :
  includes validStatuses v = true
  ↔ v = JStr "open" ∨ v = JStr "in-progress" ∨ v = JStr "closed".
Proof.
  split.
  - destruct v as [| | |s| |]; simpl; try done.
    rewrite !orb_true_iff, !String.eqb_eq.
    intros [->|[->|[->|?]]]; auto. done.
  - by intros [->|[->| ->]].
Qed.

(** C3. A PUT on an id present in the stored collection whose body
    carries a status outside ["open"], ["in-progress"], ["closed"] is
    answered with 200, and the ticket keeps the status it had, both in
    the returned record and in the persisted collection. *)
Theorem put_invalid_status_is_ignored st tickets id target body v :
  getTickets st = Resolved tickets →
  target ∈ tickets →
  parseInt id = Some (Ticket.id target) →
  Body.status body = Some v →
  v ≠ JStr "open" → v ≠ JStr "in-progress" → v ≠ JStr "closed" →
  ∃ i before after tickets' st',
    put_ticket id body st = (respond 200 (TicketObject after), st')
    ∧ getTickets st' = Resolved tickets'
    ∧ tickets !! i = Some before
    ∧ Ticket.id before = Ticket.id target
    ∧ tickets' !! i = Some after
    ∧ Ticket.status after = Ticket.status before.
Proof.
  intros Hget Hin Hid Hst Hopen Hprog Hclosed.
  destruct (put_ticket_existing _ _ _ _ Hget Hin Hid)
    as (i & before & Hfind & Hlook & Hsame).
  exists i, before, (apply_update body before),
    (<[i := apply_update body before]> tickets),
    (mkStore true (Some (<[i := apply_update body before]> tickets))).
  split; [by apply put_ticket_at|].
  repeat split; try done.
  - apply list_lookup_insert_eq. by eapply lookup_lt_Some.
  - apply (apply_update_invalid_status body before v Hst).
    destruct (includes validStatuses v) eqn:Hinc; [|done].
    apply includes_validStatuses in Hinc.
    destruct Hinc as [?|[?|?]]; congruence.
Qed.

Lemma put_invalid_status_is_ignored_witness :
  ∃ i before after tickets' st',
    put_ticket "1700000060000" (Body.status_only (JStr "archived")) sample_store
    = (respond 200 (TicketObject after), st')
    ∧ getTickets st' = Resolved tickets'
    ∧ [vpn_ticket; printer_ticket; badge_ticket] !! i = Some before
    ∧ Ticket.id before = Ticket.id vpn_ticket
    ∧ tickets' !! i = Some after
    ∧ Ticket.status after = Ticket.status before.
Proof.
  apply (put_invalid_status_is_ignored sample_store
           [vpn_ticket; printer_ticket; badge_ticket]
           "1700000060000" vpn_ticket
           (Body.status_only (JStr "archived")) (JStr "archived")).
  - reflexivity.
  - apply list_elem_of_here.
  - reflexivity.
  - reflexivity.
  - discriminate.
  - discriminate.
  - discriminate.
Defined.

(** C4. When the id of the request matches no ticket of the stored
    collection, PUT (with any body) and DELETE both answer 404 and the
    store after the request is the store before it.  The stored ids
    are safe integers, as the clock readings they come from are: the
    number [parseInt] returns then either is the integer written in
    the path or is at least 2^53 in absolute value, too large to be an
    id of the collection. *)
Theorem unknown_id_is_404 st tickets id :
  getTickets st = Resolved tickets →
  ids_safe tickets →
  (∀ t, t ∈ tickets → parseInt id ≠ Some (Ticket.id t)) →
  (∀ body,
     put_ticket id body st
     = (respond 404 (ErrorObject "Ticket not found"), st))
  ∧ delete_ticket id st = (respond 404 (ErrorObject "Ticket not found"), st).
Proof.
  intros Hget Hsafe Hnone.
  assert (findIndex (has_id id) tickets = None) as Hfind.
  { apply findIndex_None. intros t Ht. apply has_id_false. by apply Hnone. }
  split.
  - intros body. unfold put_ticket. rewrite Hget. simpl. by rewrite Hfind.
  - unfold delete_ticket. rewrite Hget. simpl. by rewrite Hfind.
Qed.

Lemma unknown_id_is_404_witness :
  (∀ body,
     put_ticket "42" body sample_store
     = (respond 404 (ErrorObject "Ticket not found"), sample_store))
  ∧ delete_ticket "42" sample_store
    = (respond 404 (ErrorObject "Ticket not found"), sample_store).
Proof.
  apply (unknown_id_is_404 sample_store
           [vpn_ticket; printer_ticket; badge_ticket] "42").
  - reflexivity.
  - repeat constructor; reflexivity.
  - intros t Ht.
    repeat (apply elem_of_cons in Ht as [->|Ht]; [discriminate|]).
    by apply elem_of_nil in Ht.
Defined.

(** C5. A POST whose body has no title, or the empty string as title,
    answers 400 with the validation error and leaves the store as it
    was. *)
Theorem post_without_title_is_400 body now_id now_created st :
  Body.title body = None ∨ Body.title body = Some (JStr "") →
  post_ticket body now_id now_created st
  = (respond 400 (ErrorObject "Title is required"), st).
Proof. unfold post_ticket. by intros [-> | ->]. Qed.

Lemma post_without_title_is_400_witness :
  post_ticket (Body.mk (Some (JStr "")) (Some (JStr "no title")) None None None)
              1700000000000 1700000000000 sample_store
  = (respond 400 (ErrorObject "Title is required"), sample_store).
Proof.
  apply (post_without_title_is_400
           (Body.mk (Some (JStr "")) (Some (JStr "no title")) None None None)).
  right. reflexivity.
Defined.

(** ** The create handler on an accepted title *)

Lemma truthy_nonempty s : s ≠ "" → truthy (JStr s) = true.
Proof.
  intros Hs. simpl. destruct (String.eqb_spec s ""); [done|reflexivity].
Qed.

Lemma post_ticket_created st tickets body title now_id now_created :
  getTickets st = Resolved tickets →
  Body.title body = Some title →
  truthy title = true →
  post_ticket body now_id now_created st
  = (respond 201 (TicketObject (newTicket title body now_id now_created)),
     mkStore true
       (Some (tickets ++ [newTicket title body now_id now_created]))).
Proof.
  intros Hget Htitle Htruthy. unfold post_ticket.
  rewrite Htitle, Htruthy, Hget. simpl.
  by rewrite (saveTickets_connected _ _ (getTickets_connected _ _ Hget)).
Qed.





(** C10. A POST with a non-empty title that supplies [type] or [area]
    as the empty string creates a ticket carrying the default for that
    field, exactly as if the field had been left out; no created ticket
    has the empty string as type or as area. *)
Theorem post_empty_type_or_area_takes_default
    st tickets body s now_id now_created :
  getTickets st = Resolved tickets →
  Body.title body = Some (JStr s) →
  s ≠ "" →
  ∃ created st',
    post_ticket body now_id now_created st
    = (respond 201 (TicketObject created), st')
    ∧ (Body.type body = Some (JStr "") →
       Ticket.type created = JStr "General Inquiry"
       ∧ post_ticket
           (Body.mk (Body.title body) (Body.description body) None
                    (Body.area body) (Body.status body))
           now_id now_created st
         = post_ticket body now_id now_created st)
    ∧ (Body.area body = Some (JStr "") →
       Ticket.area created = JStr "IT Support"
       ∧ post_ticket
           (Body.mk (Body.title body) (Body.description body) (Body.type body)
                    None (Body.status body))
           now_id now_created st
         = post_ticket body now_id now_created st)
    ∧ Ticket.type created ≠ JStr ""
    ∧ Ticket.area created ≠ JStr "".
Proof.
  intros Hget Htitle Hs.
  exists (newTicket (JStr s) body now_id now_created),
    (mkStore true
       (Some (tickets ++ [newTicket (JStr s) body now_id now_created]))).
  split.
  { apply post_ticket_created; [done..|]. by apply truthy_nonempty. }
  split; [|split; [|split]].
  - intros Htype. split; [simpl; by rewrite Htype|].
    unfold post_ticket, newTicket. simpl. by rewrite Htitle, Htype.
  - intros Harea. split; [simpl; by rewrite Harea|].
    unfold post_ticket, newTicket. simpl. by rewrite Htitle, Harea.
  - simpl. unfold js_or. destruct (Body.type body) as [v|]; [|done].
    destruct (truthy v) eqn:Hv; [|done]. intros ->. done.
  - simpl. unfold js_or. destruct (Body.area body) as [v|]; [|done].
    destruct (truthy v) eqn:Hv; [|done]. intros ->. done.
Qed.

Lemma post_empty_type_or_area_takes_default_witness :
  ∃ created st',
    post_ticket blank_type_and_area_request 1700000180000 1700000180001
      sample_store
    = (respond 201 (TicketObject created), st')
    ∧ (Body.type blank_type_and_area_request = Some (JStr "") →
       Ticket.type created = JStr "General Inquiry"
       ∧ post_ticket
           (Body.mk (Body.title blank_type_and_area_request)
                    (Body.description blank_type_and_area_request) None
                    (Body.area blank_type_and_area_request)
                    (Body.status blank_type_and_area_request))
           1700000180000 1700000180001 sample_store
         = post_ticket blank_type_and_area_request 1700000180000
             1700000180001 sample_store)
    ∧ (Body.area blank_type_and_area_request = Some (JStr "") →
       Ticket.area created = JStr "IT Support"
       ∧ post_ticket
           (Body.mk (Body.title blank_type_and_area_request)
                    (Body.description blank_type_and_area_request)
                    (Body.type blank_type_and_area_request)
                    None (Body.status blank_type_and_area_request))
           1700000180000 1700000180001 sample_store
         = post_ticket blank_type_and_area_request 1700000180000
             1700000180001 sample_store)
    ∧ Ticket.type created ≠ JStr ""
    ∧ Ticket.area created ≠ JStr "".
Proof.
  apply (post_empty_type_or_area_takes_default sample_store
           [vpn_ticket; printer_ticket; badge_ticket]
           blank_type_and_area_request "Badge lost").
  - reflexivity.
  - reflexivity.
  - discriminate.
Defined.

(** ** Ids *)

(** C8, as worded, fails: after one create at clock reading
    1700000000000 the stored ids are pairwise distinct, yet a second
    create reading the same millisecond is answered 201 with the same
    id, and the persisted ids are no longer pairwise distinct. *)
Lemma post_same_millisecond_duplicates_id :
  getTickets store_after_first_create = Resolved [printer_created]
  ∧ NoDup (ids [printer_created])
  ∧ post_ticket (title_only "VPN down") 1700000000000 1700000000000
      store_after_first_create
    = (respond 201 (TicketObject vpn_created),
       mkStore true (Some [printer_created; vpn_created]))
  ∧ Ticket.id vpn_created ∈ ids [printer_created]
  ∧ ¬ NoDup (ids [printer_created; vpn_created]).
Proof.
  split; [reflexivity|].
  split; [apply NoDup_singleton|].
  split; [reflexivity|].
  split; [apply list_elem_of_here|].
  intros Hnodup. apply NoDup_cons in Hnodup as [Hnotin _].
  apply Hnotin, list_elem_of_here.
Qed.

(** C8, amended. When the stored ids are pairwise distinct and the
    clock reading taken by a create differs from every one of them,
    the created ticket's id is that reading and the persisted
    collection again has pairwise-distinct ids. *)
Theorem post_keeps_ids_distinct st tickets body s now_id now_created :
  getTickets st = Resolved tickets →
  NoDup (ids tickets) →
  Body.title body = Some (JStr s) →
  s ≠ "" →
  now_id ∉ ids tickets →
  ∃ created st',
    post_ticket body now_id now_created st
    = (respond 201 (TicketObject created), st')
    ∧ Ticket.id created = now_id
    ∧ getTickets st' = Resolved (tickets ++ [created])
    ∧ NoDup (ids (tickets ++ [created])).
Proof.
  intros Hget Hnodup Htitle Hs Hfresh.
  exists (newTicket (JStr s) body now_id now_created),
    (mkStore true
       (Some (tickets ++ [newTicket (JStr s) body now_id now_created]))).
  split.
  { apply post_ticket_created; [done..|]. by apply truthy_nonempty. }
  split; [done|]. split; [done|].
  unfold ids. rewrite fmap_app. apply NoDup_app. repeat split; [done| |].
  - intros x Hx [->|Hnil%elem_of_nil]%elem_of_cons; done.
  - apply NoDup_singleton.
Qed.

Lemma post_keeps_ids_distinct_witness :
  ∃ created st',
    post_ticket (title_only "Monitor flickers") 1700000180000 1700000180001
      sample_store
    = (respond 201 (TicketObject created), st')
    ∧ Ticket.id created = 1700000180000
    ∧ getTickets st'
      = Resolved ([vpn_ticket; printer_ticket; badge_ticket] ++ [created])
    ∧ NoDup (ids ([vpn_ticket; printer_ticket; badge_ticket] ++ [created])).
Proof.
  apply (post_keeps_ids_distinct sample_store
           [vpn_ticket; printer_ticket; badge_ticket]
           (title_only "Monitor flickers") "Monitor flickers").
  - reflexivity.
  - apply (bool_decide_unpack _). vm_compute. exact I.
  - reflexivity.
  - discriminate.
  - apply (bool_decide_unpack _). vm_compute. exact I.
Defined.

(** ** The delete handler *)

Lemma delete_ticket_found st tickets id i :
  getTickets st = Resolved tickets →
  findIndex (has_id id) tickets = Some i →
  delete_ticket id st
  = (respond 200 (MessageObject "Ticket deleted successfully"),
     mkStore true (Some (List.filter (λ t, negb (has_id id t)) tickets))).
Proof.
  intros Hget Hfind. unfold delete_ticket. rewrite Hget. simpl.
  rewrite Hfind.
  by rewrite (saveTickets_connected _ _ (getTickets_connected _ _ Hget)).
Qed.

Section FilterFacts.
Context {A : Type}.
Implicit Types (p : A → bool) (l : list A).

Lemma elem_of_bool_filter p l x :
  x ∈ List.filter p l ↔ x ∈ l ∧ p x = true.
Proof. rewrite !list_elem_of_In. apply filter_In. Qed.

Lemma length_filter_split p l :
  (length (List.filter (λ x, negb (p x)) l) + length (List.filter p l)
   = length l)%nat.
Proof.
  induction l as [|a l IH]; simpl; [done|].
  destruct (p a); simpl; lia.
Qed.
End FilterFacts.

Lemma filter_has_id_none id tickets :
  (∀ t, t ∈ tickets → has_id id t = false) →
  List.filter (has_id id) tickets = [].
Proof.
  induction tickets as [|a l IH]; intros Hnone; simpl; [done|].
  rewrite (Hnone a (list_elem_of_here _ _)). apply IH.
  intros t Ht. apply Hnone. by apply list_elem_of_further.
Qed.

(** With pairwise-distinct ids, exactly one ticket carries a given id
    that is present. *)
Lemma filter_has_id_NoDup id tickets target :
  NoDup (ids tickets) →
  target ∈ tickets →
  has_id id target = true →
  length (List.filter (has_id id) tickets) = 1%nat.
Proof.
  induction tickets as [|a l IH]; intros Hnodup Hin Hmatch.
  { by apply elem_of_nil in Hin. }
  unfold ids in Hnodup. rewrite fmap_cons in Hnodup.
  apply NoDup_cons in Hnodup as [Hfresh Hnodup]. simpl.
  destruct (has_id id a) eqn:Ha.
  - simpl. rewrite filter_has_id_none; [done|].
    intros t Ht. destruct (has_id id t) eqn:Hidt; [|done].
    exfalso. apply Hfresh.
    apply has_id_true in Ha. apply has_id_true in Hidt.
    assert (Ticket.id a = Ticket.id t) as -> by congruence.
    apply list_elem_of_fmap. by exists t.
  - apply elem_of_cons in Hin as [->|Hin]; [congruence|].
    by apply IH.
Qed.

Section SortPermutation.
Context {A : Type}.
Implicit Types (comparefn : A → A → option Z) (l : list A).

Lemma sort_insert_perm comparefn x l :
  sort_insert comparefn x l ≡ₚ x :: l.
Proof.
  induction l as [|y l IH]; simpl; [done|].
  destruct (0 <? SortCompare comparefn x y); [|done].
  rewrite IH. apply Permutation_swap.
Qed.

Lemma Array_sort_perm comparefn l : Array_sort comparefn l ≡ₚ l.
Proof.
  unfold Array_sort. induction l as [|x l IH]; simpl; [done|].
  by rewrite sort_insert_perm, IH.
Qed.
End SortPermutation.

(** The collection with a shared id is one the service produces by
    itself: two creates served within one millisecond. *)
Lemma store_after_second_create_reachable :
  reachable store_after_second_create.
Proof.
  apply (reachable_step _
           (CreateTicket (title_only "VPN down") 1700000000000 1700000000000)).
  - apply (reachable_step _
             (CreateTicket (title_only "Printer jam")
                1700000000000 1700000000000)).
    + apply reachable_start.
    + intros body now_id now_created [= _ _ <-]. unfold four_digit_year. lia.
  - intros body now_id now_created [= _ _ <-]. unfold four_digit_year. lia.
Qed.

(** C9, as worded, fails: on the collection reached by two creates in
    one millisecond, both tickets carry the id 1700000000000; a DELETE
    of that id succeeds and the persisted collection shrinks from two
    tickets to none, not by exactly one. *)
Lemma delete_shared_id_removes_two :
  getTickets store_after_second_create = Resolved [printer_created; vpn_created]
  ∧ Ticket.id printer_created = 1700000000000
  ∧ delete_ticket "1700000000000" store_after_second_create
    = (respond 200 (MessageObject "Ticket deleted successfully"),
       mkStore true (Some []))
  ∧ (length (@nil Ticket.t) + 1)%nat ≠ length [printer_created; vpn_created].
Proof. repeat split. simpl. lia. Qed.

(** C9, amended. A DELETE of an id present in the stored collection
    answers 200; the persisted collection holds no ticket with that id
    and is shorter than before by the number of tickets that carried
    it, which is exactly one when the stored ids are pairwise distinct;
    a following List answers 200 with an array in which the id does not
    occur. *)
Theorem delete_removes_matching_tickets st tickets id target :
  getTickets st = Resolved tickets →
  target ∈ tickets →
  parseInt id = Some (Ticket.id target) →
  ∃ tickets' st' listed,
    delete_ticket id st
    = (respond 200 (MessageObject "Ticket deleted successfully"), st')
    ∧ getTickets st' = Resolved tickets'
    ∧ (Ticket.id target ∉ ids tickets')
    ∧ length tickets
      = (length tickets' + length (List.filter (has_id id) tickets))%nat
    ∧ (NoDup (ids tickets) → S (length tickets') = length tickets)
    ∧ get_tickets st' = (respond 200 (TicketArray listed), st')
    ∧ Ticket.id target ∉ ids listed.
Proof.
  intros Hget Hin Hid.
  destruct (findIndex_found (has_id id) tickets target Hin) as [i Hi].
  { by apply has_id_true. }
  set (tickets' := List.filter (λ t, negb (has_id id t)) tickets).
  assert (Ticket.id target ∉ ids tickets') as Hgone.
  { unfold ids. intros (t & Heq & Ht)%list_elem_of_fmap.
    apply elem_of_bool_filter in Ht as [_ Ht].
    apply negb_true_iff, has_id_false in Ht. congruence. }
  exists tickets', (mkStore true (Some tickets')),
    (Array_sort by_created_at_desc tickets').
  split; [by eapply delete_ticket_found|].
  split; [done|].
  split; [done|].
  split; [symmetry; apply length_filter_split|].
  split.
  { intros Hnodup.
    pose proof (length_filter_split (has_id id) tickets) as Hlen.
    rewrite (filter_has_id_NoDup id tickets target) in Hlen; [|done..|].
    - fold tickets' in Hlen. lia.
    - by apply has_id_true. }
  split; [done|].
  unfold ids. by rewrite Array_sort_perm.
Qed.

Lemma delete_removes_matching_tickets_witness :
  ∃ tickets' st' listed,
    delete_ticket "1700000060000" sample_store
    = (respond 200 (MessageObject "Ticket deleted successfully"), st')
    ∧ getTickets st' = Resolved tickets'
    ∧ (Ticket.id vpn_ticket ∉ ids tickets')
    ∧ length [vpn_ticket; printer_ticket; badge_ticket]
      = (length tickets'
         + length (List.filter (has_id "1700000060000")
                     [vpn_ticket; printer_ticket; badge_ticket]))%nat
    ∧ (NoDup (ids [vpn_ticket; printer_ticket; badge_ticket]) →
       S (length tickets')
       = length [vpn_ticket; printer_ticket; badge_ticket])
    ∧ get_tickets st' = (respond 200 (TicketArray listed), st')
    ∧ Ticket.id vpn_ticket ∉ ids listed.
Proof.
  apply (delete_removes_matching_tickets sample_store
           [vpn_ticket; printer_ticket; badge_ticket]
           "1700000060000" vpn_ticket).
  - reflexivity.
  - apply list_elem_of_here.
  - reflexivity.
Defined.

(** ** Facts about dates

    The calendar conversions are inverse to each other, and the layout
    written by [toISOString] is the one [Date_parse] reads. *)

Lemma civil_from_days_inverse days y m d :
  civil_from_days days = (y, m, d) →
  days_from_civil y m d = days ∧ 1 ≤ m ≤ 12 ∧ 1 ≤ d.
Proof.
  unfold civil_from_days, days_from_civil.
  set (z := days + 719468).
  set (era := z / 146097).
  set (doe := z - era * 146097).
  set (yoe := (doe - doe / 1460 + doe / 36524 - doe / 146096) / 365).
  set (doy := doe - (365 * yoe + yoe / 4 - yoe / 100)).
  set (mp := (5 * doy + 2) / 153).
  assert (0 ≤ doe < 146097) as Hdoe.
  { unfold doe, era. Z.div_mod_to_equations. lia. }
  assert (0 ≤ yoe ≤ 399 ∧ 0 ≤ doy ≤ 365) as [Hyoe Hdoy].
  { unfold doy, yoe. Z.div_mod_to_equations. lia. }
  assert (0 ≤ mp ≤ 11) as Hmp.
  { unfold mp. Z.div_mod_to_equations. lia. }
  intros [= <- <- <-].
  destruct (Z.ltb_spec mp 10).
  - destruct (Z.leb_spec (mp + 3) 2); [lia|].
    destruct (Z.ltb_spec 2 (mp + 3)); [|lia].
    replace (mp + 3 - 3) with mp by lia.
    assert ((yoe + era * 400) / 400 = era) as ->.
    { Z.div_mod_to_equations. lia. }
    split; [|split; [lia|]].
    + unfold doy in *. unfold doe in *. unfold z in *. Z.div_mod_to_equations; lia.
    + unfold mp; Z.div_mod_to_equations; lia.
  - destruct (Z.leb_spec (mp - 9) 2); [|lia].
    destruct (Z.ltb_spec 2 (mp - 9)); [lia|].
    replace (mp - 9 + 9) with mp by lia.
    replace (yoe + era * 400 + 1 - 1) with (yoe + era * 400) by lia.
    assert ((yoe + era * 400) / 400 = era) as ->.
    { Z.div_mod_to_equations. lia. }
    split; [|split; [lia|]].
    + unfold doy in *. unfold doe in *. unfold z in *. Z.div_mod_to_equations; lia.
    + unfold mp; Z.div_mod_to_equations; lia.
Qed.

Lemma leap_year_false y :
  leap_year y = false →
  y mod 4 ≠ 0 ∨ (y mod 100 = 0 ∧ y mod 400 ≠ 0).
Proof.
  unfold leap_year.
  destruct (Z.eqb_spec (y mod 4) 0), (Z.eqb_spec (y mod 100) 0),
    (Z.eqb_spec (y mod 400) 0); simpl; intros; try discriminate; lia.
Qed.

Lemma civil_from_days_day_valid days y m d :
  civil_from_days days = (y, m, d) → d ≤ days_in_month y m.
Proof.
  unfold civil_from_days.
  set (z := days + 719468).
  set (era := z / 146097).
  set (doe := z - era * 146097).
  set (yoe := (doe - doe / 1460 + doe / 36524 - doe / 146096) / 365).
  set (doy := doe - (365 * yoe + yoe / 4 - yoe / 100)).
  set (mp := (5 * doy + 2) / 153).
  assert (0 ≤ doe < 146097) as Hdoe.
  { unfold doe, era. Z.div_mod_to_equations. lia. }
  assert (0 ≤ yoe ≤ 399 ∧ 0 ≤ doy ≤ 365) as [Hyoe Hdoy].
  { unfold doy, yoe. Z.div_mod_to_equations. lia. }
  assert (0 ≤ mp ≤ 11) as Hmp.
  { unfold mp. Z.div_mod_to_equations. lia. }
  assert (doy = 365 → leap_year (yoe + era * 400 + 1) = true) as Hleap.
  { intros Hlast.
    destruct (leap_year (yoe + era * 400 + 1)) eqn:Hly; [done|].
    apply leap_year_false in Hly. exfalso.
    unfold doy, yoe in *. Z.div_mod_to_equations; lia. }
  assert (153 * mp ≤ 5 * doy + 2 < 153 * mp + 153) as Hmpdef.
  { unfold mp. Z.div_mod_to_equations. lia. }
  clearbody mp. clearbody doy.
  intros [= <- <- <-].
  assert (mp = 0 ∨ mp = 1 ∨ mp = 2 ∨ mp = 3 ∨ mp = 4 ∨ mp = 5 ∨ mp = 6
          ∨ mp = 7 ∨ mp = 8 ∨ mp = 9 ∨ mp = 10 ∨ mp = 11) as Hcases by lia.
  repeat (destruct Hcases as [->|Hcases]); [..|subst mp];
    unfold days_in_month; simpl; try (Z.div_mod_to_equations; lia).
  destruct (leap_year (yoe + era * 400 + 1)) eqn:Hly.
  - Z.div_mod_to_equations; lia.
  - assert (doy ≠ 365) by (intros Hd; specialize (Hleap Hd); congruence).
    Z.div_mod_to_equations; lia.
Qed.

Lemma civil_from_days_year_range days y m d :
  -719528 ≤ days ≤ 2932896 →
  civil_from_days days = (y, m, d) →
  0 ≤ y ≤ 9999.
Proof.
  intros Hrange. unfold civil_from_days.
  set (z := days + 719468).
  set (era := z / 146097).
  set (doe := z - era * 146097).
  set (yoe := (doe - doe / 1460 + doe / 36524 - doe / 146096) / 365).
  set (doy := doe - (365 * yoe + yoe / 4 - yoe / 100)).
  set (mp := (5 * doy + 2) / 153).
  assert (-1 ≤ era ≤ 24) as Hera.
  { unfold era, z. Z.div_mod_to_equations. lia. }
  assert (0 ≤ doe < 146097) as Hdoe.
  { unfold doe, era. Z.div_mod_to_equations. lia. }
  assert (0 ≤ yoe ≤ 399 ∧ 0 ≤ doy ≤ 365) as [Hyoe Hdoy].
  { unfold doy, yoe. Z.div_mod_to_equations. lia. }
  assert (era = -1 → yoe = 399 ∧ 306 ≤ doy) as Hfirst.
  { intros He. assert (146037 ≤ doe) by (unfold doe, z; lia).
    unfold doy, yoe. Z.div_mod_to_equations. lia. }
  assert (era = 24 → yoe = 399 → doy ≤ 305) as Hlast.
  { intros He Hy. assert (doe ≤ 146036) by (unfold doe, z; lia).
    unfold doy, yoe in *. Z.div_mod_to_equations. lia. }
  assert (153 * mp ≤ 5 * doy + 2 < 153 * mp + 153) as Hmp.
  { unfold mp. Z.div_mod_to_equations. lia. }
  clearbody mp doy yoe. clearbody era.
  intros [= <- <- <-].
  destruct (Z.ltb_spec mp 10);
    [destruct (Z.leb_spec (mp + 3) 2)|destruct (Z.leb_spec (mp - 9) 2)]; lia.
Qed.

Lemma dec_digit_char k : 0 ≤ k ≤ 9 → dec_digit (digit_char k) = Some k.
Proof.
  intros Hk.
  assert (k = 0 ∨ k = 1 ∨ k = 2 ∨ k = 3 ∨ k = 4 ∨ k = 5 ∨ k = 6 ∨ k = 7
          ∨ k = 8 ∨ k = 9) as Hcases by lia.
  repeat (destruct Hcases as [->|Hcases]); [..|subst k]; reflexivity.
Qed.

Lemma dec_number_digits2 n :
  0 ≤ n < 100 →
  dec_number [digit_char (n / 10 mod 10); digit_char (n mod 10)] 0 = Some n.
Proof.
  intros Hn. unfold dec_number.
  rewrite !dec_digit_char by (apply Z.mod_pos_bound || (Z.div_mod_to_equations; lia)).
  f_equal. Z.div_mod_to_equations. lia.
Qed.

Lemma dec_number_digits3 n :
  0 ≤ n < 1000 →
  dec_number [digit_char (n / 10 / 10 mod 10); digit_char (n / 10 mod 10);
              digit_char (n mod 10)] 0 = Some n.
Proof.
  intros Hn. unfold dec_number.
  rewrite !dec_digit_char by (Z.div_mod_to_equations; lia).
  f_equal. Z.div_mod_to_equations. lia.
Qed.

Lemma dec_number_digits4 n :
  0 ≤ n < 10000 →
  dec_number [digit_char (n / 10 / 10 / 10 mod 10);
              digit_char (n / 10 / 10 mod 10); digit_char (n / 10 mod 10);
              digit_char (n mod 10)] 0 = Some n.
Proof.
  intros Hn. unfold dec_number.
  rewrite !dec_digit_char by (Z.div_mod_to_equations; lia).
  f_equal. Z.div_mod_to_equations. lia.
Qed.

Lemma Date_parse_layout
    (y1 y2 y3 y4 m1 m2 d1 d2 h1 h2 n1 n2 s1 s2 f1 f2 f3 : ascii) :
  Date_parse
    (string_of_list_ascii
       [y1; y2; y3; y4; "-"%char; m1; m2; "-"%char; d1; d2; "T"%char;
        h1; h2; ":"%char; n1; n2; ":"%char; s1; s2; "."%char; f1; f2; f3;
        "Z"%char])
  = (y ← dec_number [y1; y2; y3; y4] 0;
     m ← dec_number [m1; m2] 0;
     d ← dec_number [d1; d2] 0;
     h ← dec_number [h1; h2] 0;
     mi ← dec_number [n1; n2] 0;
     sec ← dec_number [s1; s2] 0;
     ms ← dec_number [f1; f2; f3] 0;
     if (1 <=? m) && (m <=? 12) && (1 <=? d) && (d <=? days_in_month y m)
        && (h <=? 23) && (mi <=? 59) && (sec <=? 59)
     then Some (days_from_civil y m d * msPerDay
                + h * 3600000 + mi * 60000 + sec * 1000 + ms)
     else None).
Proof. reflexivity. Qed.

Lemma Date_toISOString_layout tv y m d :
  civil_from_days (tv / msPerDay) = (y, m, d) →
  0 ≤ y ≤ 9999 →
  Date_toISOString tv
  = string_of_list_ascii
      [digit_char (y / 10 / 10 / 10 mod 10); digit_char (y / 10 / 10 mod 10);
       digit_char (y / 10 mod 10); digit_char (y mod 10); "-"%char;
       digit_char (m / 10 mod 10); digit_char (m mod 10); "-"%char;
       digit_char (d / 10 mod 10); digit_char (d mod 10); "T"%char;
       digit_char (tv mod msPerDay / 3600000 / 10 mod 10);
       digit_char (tv mod msPerDay / 3600000 mod 10); ":"%char;
       digit_char (tv mod msPerDay / 60000 mod 60 / 10 mod 10);
       digit_char (tv mod msPerDay / 60000 mod 60 mod 10); ":"%char;
       digit_char (tv mod msPerDay / 1000 mod 60 / 10 mod 10);
       digit_char (tv mod msPerDay / 1000 mod 60 mod 10); "."%char;
       digit_char (tv mod msPerDay mod 1000 / 10 / 10 mod 10);
       digit_char (tv mod msPerDay mod 1000 / 10 mod 10);
       digit_char (tv mod msPerDay mod 1000 mod 10); "Z"%char].
Proof.
  intros Hcivil Hy. unfold Date_toISOString. rewrite Hcivil.
  destruct (Z.leb_spec 0 y); [|lia].
  destruct (Z.leb_spec y 9999); [|lia].
  reflexivity.
Qed.

(** Reading back what [toISOString] wrote gives the instant again. *)
Lemma Date_parse_toISOString tv :
  four_digit_year tv →
  Date_parse (Date_toISOString tv) = Some tv.
Proof.
  unfold four_digit_year. intros Htv.
  destruct (civil_from_days (tv / msPerDay)) as [[y m] d] eqn:Hcivil.
  assert (-719528 ≤ tv / msPerDay ≤ 2932896) as Hdays.
  { unfold msPerDay. Z.div_mod_to_equations. lia. }
  pose proof (civil_from_days_year_range _ _ _ _ Hdays Hcivil) as Hy.
  pose proof (civil_from_days_inverse _ _ _ _ Hcivil) as (Hinv & Hm & Hd).
  pose proof (civil_from_days_day_valid _ _ _ _ Hcivil) as Hdmax.
  assert (days_in_month y m ≤ 31) as Hlen.
  { unfold days_in_month.
    repeat match goal with |- context [if ?b then _ else _] => destruct b end;
      lia. }
  rewrite (Date_toISOString_layout tv y m d Hcivil Hy), Date_parse_layout.
  assert (0 ≤ tv mod msPerDay < 86400000) as Hms.
  { apply Z.mod_pos_bound. reflexivity. }
  rewrite dec_number_digits4 by lia.
  rewrite !dec_number_digits2 by (try lia; Z.div_mod_to_equations; lia).
  rewrite dec_number_digits3 by (Z.div_mod_to_equations; lia).
  simpl.
  repeat match goal with
         | |- context [?a <=? ?b] =>
             destruct (Z.leb_spec a b);
             [|exfalso; try lia; Z.div_mod_to_equations; lia]
         end.
  simpl. f_equal. rewrite Hinv. unfold msPerDay in *.
  Z.div_mod_to_equations. lia.
Qed.

(** ** The list handler *)

Lemma not_older_trans a b c : not_older a b → not_older b c → not_older a c.
Proof.
  intros (ta & tb & Ha & Hb & Hab) (tb' & tc & Hb' & Hc & Hbc).
  exists ta, tc. repeat split; [done..|].
  assert (tb' = tb) by congruence. lia.
Qed.

Lemma sort_insert_sorted x l :
  is_Some (created x) →
  Forall (λ t, is_Some (created t)) l →
  StronglySorted not_older l →
  StronglySorted not_older (sort_insert by_created_at_desc x l).
Proof.
  intros [tx Hx] Hvalid Hsorted.
  induction Hsorted as [|y l Hsorted IH Hy]; simpl.
  { repeat constructor. }
  apply Forall_cons in Hvalid as [[ty Hty] Hvalid].
  unfold SortCompare, by_created_at_desc. fold (created x) (created y).
  rewrite Hx, Hty. simpl.
  destruct (0 <? ty - tx) eqn:Hcmp.
  - apply Z.ltb_lt in Hcmp. constructor; [by apply IH|].
    rewrite sort_insert_perm. constructor; [|done].
    exists ty, tx. repeat split; [done..|lia].
  - apply Z.ltb_ge in Hcmp.
    assert (not_older x y) as Hxy.
    { exists tx, ty. repeat split; [done..|lia]. }
    constructor; [by constructor|].
    constructor; [done|].
    eapply Forall_impl; [exact Hy|].
    intros z Hz. by eapply not_older_trans.
Qed.

Lemma Array_sort_sorted l :
  Forall (λ t, is_Some (created t)) l →
  StronglySorted not_older (Array_sort by_created_at_desc l).
Proof.
  unfold Array_sort. induction l as [|x l IH]; intros Hvalid; simpl.
  { constructor. }
  apply Forall_cons in Hvalid as [Hx Hvalid].
  apply sort_insert_sorted; [done| |by apply IH].
  fold (Array_sort by_created_at_desc l). by rewrite Array_sort_perm.
Qed.

(** Three tickets with strictly increasing creation instants admit one
    descending arrangement only. *)
Lemma three_descending a b c t1 t2 t3 l :
  created a = Some t1 → created b = Some t2 → created c = Some t3 →
  t1 < t2 → t2 < t3 →
  l ≡ₚ [a; b; c] →
  StronglySorted not_older l →
  l = [c; b; a].
Proof.
  intros Ha Hb Hc H12 H23 Hperm Hsorted.
  assert (∀ x, x ∈ [c; b; a] → x = a ∨ x = b ∨ x = c) as Hcases.
  { intros x Hx.
    repeat (apply elem_of_cons in Hx as [->|Hx]; [tauto|]).
    by apply elem_of_nil in Hx. }
  apply (StronglySorted_unique_strong not_older); [|done| |].
  - intros x1 x2 Hx1 Hx2 (u & v & Hu & Hv & Huv) (v' & u' & Hv' & Hu' & Hvu).
    assert (u' = u) by congruence. assert (v' = v) by congruence.
    assert (u = v) by lia. subst.
    rewrite Hperm in Hx1.
    assert (x1 ∈ [c; b; a]) as Hx1'.
    { rewrite (Permutation_rev [c; b; a]). exact Hx1. }
    destruct (Hcases x1 Hx1') as [->|[->| ->]],
             (Hcases x2 Hx2) as [->|[->| ->]];
      try done; exfalso;
      first [ assert (t1 = t2) by congruence
            | assert (t1 = t3) by congruence
            | assert (t2 = t3) by congruence ]; lia.
  - assert (not_older c b) as Hcb.
    { exists t3, t2. repeat split; [done..|lia]. }
    assert (not_older c a) as Hca.
    { exists t3, t1. repeat split; [done..|lia]. }
    assert (not_older b a) as Hba.
    { exists t2, t1. repeat split; [done..|lia]. }
    repeat (constructor; try assumption).
  - rewrite Hperm. apply (Permutation_rev [a; b; c]).
Qed.

(** C6. On a stored collection whose created_at fields are valid
    dates, List answers 200 with an array that is a rearrangement of
    the whole collection (nothing dropped, nothing added) in descending
    order of created_at, and leaves the store alone; when the
    collection consists of three tickets created at t1 < t2 < t3, the
    array is those tickets in the order t3, t2, t1. *)
Theorem get_lists_all_newest_first st tickets :
  getTickets st = Resolved tickets →
  dates_valid tickets →
  ∃ listed,
    get_tickets st = (respond 200 (TicketArray listed), st)
    ∧ listed ≡ₚ tickets
    ∧ StronglySorted not_older listed
    ∧ ∀ a b c t1 t2 t3,
        tickets ≡ₚ [a; b; c] →
        created a = Some t1 → created b = Some t2 → created c = Some t3 →
        t1 < t2 → t2 < t3 →
        listed = [c; b; a].
Proof.
  intros Hget Hvalid.
  exists (Array_sort by_created_at_desc tickets).
  split; [unfold get_tickets; by rewrite Hget|].
  split; [apply Array_sort_perm|].
  split; [by apply Array_sort_sorted|].
  intros a b c t1 t2 t3 Hperm Ha Hb Hc H12 H23.
  apply (three_descending a b c t1 t2 t3); [done..| |].
  - by rewrite Array_sort_perm.
  - by apply Array_sort_sorted.
Qed.

Lemma get_lists_all_newest_first_witness :
  ∃ listed,
    get_tickets sample_store = (respond 200 (TicketArray listed), sample_store)
    ∧ listed ≡ₚ [vpn_ticket; printer_ticket; badge_ticket]
    ∧ StronglySorted not_older listed
    ∧ ∀ a b c t1 t2 t3,
        [vpn_ticket; printer_ticket; badge_ticket] ≡ₚ [a; b; c] →
        created a = Some t1 → created b = Some t2 → created c = Some t3 →
        t1 < t2 → t2 < t3 →
        listed = [c; b; a].
Proof.
  apply (get_lists_all_newest_first sample_store
           [vpn_ticket; printer_ticket; badge_ticket]).
  - reflexivity.
  - repeat constructor; by eexists.
Defined.

(** Valid dates are an invariant of the service: no handler writes a
    created_at other than the ISO rendering of a clock reading. *)
Lemma handle_keeps_dates_valid r st tickets :
  getTickets st = Resolved tickets →
  dates_valid tickets →
  (∀ body now_id now_created,
     r = CreateTicket body now_id now_created →
     four_digit_year now_created) →
  ∃ tickets',
    getTickets (handle r st).2 = Resolved tickets' ∧ dates_valid tickets'.
Proof.
  intros Hget Hvalid Hclock.
  pose proof (getTickets_connected _ _ Hget) as Hconn.
  destruct r as [|body now_id now_created|id body|id]; simpl.
  - exists tickets. unfold get_tickets. by rewrite Hget.
  - unfold post_ticket.
    destruct (Body.title body) as [title|]; [|by exists tickets].
    destruct (truthy title); simpl; [|by exists tickets].
    rewrite Hget. simpl. rewrite (saveTickets_connected _ _ Hconn). simpl.
    eexists. split; [reflexivity|].
    apply Forall_app. split; [done|].
    constructor; [|constructor]. unfold created, newTicket. simpl.
    rewrite Date_parse_toISOString; [by eexists|]. by eapply Hclock.
  - unfold put_ticket. rewrite Hget. simpl.
    destruct (findIndex (has_id id) tickets) as [i|]; [|by exists tickets].
    destruct (tickets !! i) as [ticket|] eqn:Hlook; [|by exists tickets].
    simpl. rewrite (saveTickets_connected _ _ Hconn). simpl.
    eexists. split; [reflexivity|].
    apply Forall_insert; [done|].
    assert (is_Some (created ticket)) as Hold.
    { unfold dates_valid in Hvalid. rewrite Forall_forall in Hvalid.
      apply Hvalid. by eapply list_elem_of_lookup_2. }
    unfold created, apply_update in *.
    destruct (Body.title body), (Body.description body), (Body.type body),
      (Body.area body), (Body.status body) as [s|];
      simpl; try destruct (includes validStatuses s); exact Hold.
  - unfold delete_ticket. rewrite Hget. simpl.
    destruct (findIndex (has_id id) tickets); [|by exists tickets].
    simpl. rewrite (saveTickets_connected _ _ Hconn). simpl.
    eexists. split; [reflexivity|].
    unfold dates_valid in *. rewrite Forall_forall in *.
    intros t [Ht _]%elem_of_bool_filter. by apply Hvalid.
Qed.

Lemma reachable_dates_valid st :
  reachable st →
  ∃ tickets, getTickets st = Resolved tickets ∧ dates_valid tickets.
Proof.
  induction 1 as [|st r _ (tickets & Hget & Hvalid) Hclock].
  - exists []. split; [reflexivity|constructor].
  - by apply (handle_keeps_dates_valid r st tickets).
Qed.

(** On every store the service can reach, List answers with the whole
    collection, newest first. *)
Corollary reachable_get_newest_first st :
  reachable st →
  ∃ tickets listed,
    getTickets st = Resolved tickets
    ∧ get_tickets st = (respond 200 (TicketArray listed), st)
    ∧ listed ≡ₚ tickets
    ∧ StronglySorted not_older listed.
Proof.
  intros (tickets & Hget & Hvalid)%reachable_dates_valid.
  exists tickets, (Array_sort by_created_at_desc tickets).
  split; [done|].
  split; [unfold get_tickets; by rewrite Hget|].
  split; [apply Array_sort_perm|by apply Array_sort_sorted].
Qed.

(** ** The title invariant *)

(** Create keeps the invariant: a request is either refused, leaving
    the store alone, or appends a ticket with a truthy title. *)
Lemma post_keeps_titles_nonempty st tickets body now_id now_created :
  getTickets st = Resolved tickets →
  titles_nonempty tickets →
  ∃ tickets',
    getTickets (post_ticket body now_id now_created st).2 = Resolved tickets'
    ∧ titles_nonempty tickets'.
Proof.
  intros Hget Hinv. unfold post_ticket.
  destruct (Body.title body) as [title|] eqn:Htitle; [|by exists tickets].
  destruct (truthy title) eqn:Htruthy; simpl; [|by exists tickets].
  rewrite Hget. simpl.
  rewrite (saveTickets_connected _ _ (getTickets_connected _ _ Hget)). simpl.
  eexists. split; [reflexivity|].
  apply Forall_app. split; [done|].
  constructor; [|constructor]. simpl. by intros ->.
Qed.

(** Delete keeps the invariant: it only removes tickets. *)
Lemma delete_keeps_titles_nonempty st tickets id :
  getTickets st = Resolved tickets →
  titles_nonempty tickets →
  ∃ tickets',
    getTickets (delete_ticket id st).2 = Resolved tickets'
    ∧ titles_nonempty tickets'.
Proof.
  intros Hget Hinv. unfold delete_ticket. rewrite Hget. simpl.
  destruct (findIndex (has_id id) tickets); simpl; [|by exists tickets].
  rewrite (saveTickets_connected _ _ (getTickets_connected _ _ Hget)). simpl.
  eexists. split; [reflexivity|].
  unfold titles_nonempty in *. rewrite Forall_forall in *.
  intros t [Ht _]%elem_of_bool_filter. by apply Hinv.
Qed.

(** Update keeps the invariant as long as the body does not carry the
    empty string as title. *)
Lemma put_keeps_titles_nonempty st tickets id body :
  getTickets st = Resolved tickets →
  titles_nonempty tickets →
  Body.title body ≠ Some (JStr "") →
  ∃ tickets',
    getTickets (put_ticket id body st).2 = Resolved tickets'
    ∧ titles_nonempty tickets'.
Proof.
  intros Hget Hinv Hbody. unfold put_ticket. rewrite Hget. simpl.
  destruct (findIndex (has_id id) tickets) as [i|]; simpl;
    [|by exists tickets].
  destruct (tickets !! i) as [ticket|] eqn:Hlook; simpl; [|by exists tickets].
  rewrite (saveTickets_connected _ _ (getTickets_connected _ _ Hget)). simpl.
  eexists. split; [reflexivity|].
  apply Forall_insert; [done|].
  assert (Ticket.title ticket ≠ JStr "") as Hold.
  { unfold titles_nonempty in Hinv. rewrite Forall_forall in Hinv.
    apply Hinv. by eapply list_elem_of_lookup_2. }
  unfold apply_update.
  destruct (Body.title body) as [v|] eqn:Hv,
           (Body.description body), (Body.type body), (Body.area body),
           (Body.status body) as [s|];
    simpl; try destruct (includes validStatuses s); simpl;
    first [ exact Hold | intros ->; by apply Hbody ].
Qed.

(** C7. The update handler breaks the title invariant: on a collection
    whose titles are all non-empty, a PUT on an existing id with the
    body [{title: ""}] is answered 200 and persists that ticket with
    the empty string as title. *)
Theorem put_blank_title_is_stored :
  getTickets sample_store = Resolved [vpn_ticket; printer_ticket; badge_ticket]
  ∧ titles_nonempty [vpn_ticket; printer_ticket; badge_ticket]
  ∧ put_ticket "1700000000000" blank_title_request sample_store
    = (respond 200 (TicketObject (Ticket.set_title (JStr "") printer_ticket)),
       mkStore true
         (Some [vpn_ticket; Ticket.set_title (JStr "") printer_ticket;
                badge_ticket]))
  ∧ ¬ titles_nonempty
        [vpn_ticket; Ticket.set_title (JStr "") printer_ticket; badge_ticket].
Proof.
  split; [reflexivity|].
  split; [repeat constructor; discriminate|].
  split; [reflexivity|].
  intros Hinv. apply Forall_cons in Hinv as [_ Hinv].
  apply Forall_cons in Hinv as [Hblank _]. by apply Hblank.
Qed.


(** * Further properties of the handlers *)

(** ** Store failures *)



(** ** Update: what it can and cannot change *)

Lemma apply_update_id body ticket :
  Ticket.id (apply_update body ticket) = Ticket.id ticket.
Proof.
  unfold apply_update.
  destruct (Body.title body), (Body.description body), (Body.type body),
    (Body.area body), (Body.status body) as [s|];
    simpl; try destruct (includes validStatuses s); reflexivity.
Qed.

Lemma apply_update_created_at body ticket :
  Ticket.created_at (apply_update body ticket) = Ticket.created_at ticket.
Proof.
  unfold apply_update.
  destruct (Body.title body), (Body.description body), (Body.type body),
    (Body.area body), (Body.status body) as [s|];
    simpl; try destruct (includes validStatuses s); reflexivity.
Qed.

(** The store after an update, whatever its outcome: the loaded
    collection with at most one position rewritten by [apply_update]. *)
Lemma put_ticket_store st tickets id body :
  getTickets st = Resolved tickets →
  getTickets (put_ticket id body st).2 = Resolved tickets
  ∨ ∃ i ticket,
      findIndex (has_id id) tickets = Some i
      ∧ tickets !! i = Some ticket
      ∧ getTickets (put_ticket id body st).2
        = Resolved (<[i := apply_update body ticket]> tickets).
Proof.
  intros Hget.
  destruct (findIndex (has_id id) tickets) as [i|] eqn:Hfind.
  - destruct (findIndex_lookup _ _ _ Hfind) as (ticket & Hlook & _).
    right. exists i, ticket. repeat split; [done|].
    by rewrite (put_ticket_at st tickets id body i ticket).
  - left. unfold put_ticket. rewrite Hget. simpl. by rewrite Hfind.
Qed.

(** X2. No update request, whatever its id and body, changes the
    number of tickets, the id of any ticket or the created_at of any
    ticket: position by position these are the same before and
    after. *)
Theorem put_never_changes_id_or_created_at st tickets id body :
  getTickets st = Resolved tickets →
  ∃ tickets',
    getTickets (put_ticket id body st).2 = Resolved tickets'
    ∧ length tickets' = length tickets
    ∧ Ticket.id <$> tickets' = Ticket.id <$> tickets
    ∧ Ticket.created_at <$> tickets' = Ticket.created_at <$> tickets.
Proof.
  intros Hget.
  destruct (put_ticket_store st tickets id body Hget)
    as [Hsame|(i & ticket & _ & Hlook & Hput)].
  { by exists tickets. }
  eexists. split; [exact Hput|].
  split; [apply length_insert|].
  split.
  - rewrite list_fmap_insert, apply_update_id.
    apply list_insert_id. by rewrite list_lookup_fmap, Hlook.
  - rewrite list_fmap_insert, apply_update_created_at.
    apply list_insert_id. by rewrite list_lookup_fmap, Hlook.
Qed.

Lemma put_never_changes_id_or_created_at_witness :
  ∃ tickets',
    getTickets
      (put_ticket "1700000000000"
         (form_body "Toner" "empty" "Hardware" "Office") sample_store).2
    = Resolved tickets'
    ∧ length tickets' = length [vpn_ticket; printer_ticket; badge_ticket]
    ∧ Ticket.id <$> tickets'
      = Ticket.id <$> [vpn_ticket; printer_ticket; badge_ticket]
    ∧ Ticket.created_at <$> tickets'
      = Ticket.created_at <$> [vpn_ticket; printer_ticket; badge_ticket].
Proof.
  apply (put_never_changes_id_or_created_at sample_store
           [vpn_ticket; printer_ticket; badge_ticket]).
  reflexivity.
Defined.

(** X3. An update of an id present in the collection rewrites the
    first ticket that has that id and no other: it answers 200 with a
    record that takes that ticket's place in the persisted collection,
    which keeps that ticket's id and created_at, in which each of
    title, description, type and area is the value of the body when
    the body has the field (the empty string and null included) and
    the old value when it has not, and in which status is the body's
    value when that is one of the three accepted strings and the old
    status otherwise. *)
Theorem put_overwrites_exactly_supplied_fields st tickets id target body :
  getTickets st = Resolved tickets →
  target ∈ tickets →
  parseInt id = Some (Ticket.id target) →
  ∃ i before after st',
    put_ticket id body st = (respond 200 (TicketObject after), st')
    ∧ tickets !! i = Some before
    ∧ Ticket.id before = Ticket.id target
    ∧ (∀ j earlier, (j < i)%nat → tickets !! j = Some earlier →
                    Ticket.id earlier ≠ Ticket.id target)
    ∧ getTickets st' = Resolved (<[i := after]> tickets)
    ∧ Ticket.id after = Ticket.id before
    ∧ Ticket.created_at after = Ticket.created_at before
    ∧ overwritten_if_supplied (Body.title body)
        (Ticket.title before) (Ticket.title after)
    ∧ overwritten_if_supplied (Body.description body)
        (Ticket.description before) (Ticket.description after)
    ∧ overwritten_if_supplied (Body.type body)
        (Ticket.type before) (Ticket.type after)
    ∧ overwritten_if_supplied (Body.area body)
        (Ticket.area before) (Ticket.area after)
    ∧ (∀ v, Body.status body = Some v →
            includes validStatuses v = true → Ticket.status after = v)
    ∧ (∀ v, Body.status body = Some v →
            includes validStatuses v = false →
            Ticket.status after = Ticket.status before)
    ∧ (Body.status body = None → Ticket.status after = Ticket.status before).
Proof.
  intros Hget Hin Hid.
  destruct (findIndex_found (has_id id) tickets target Hin) as [i Hfind].
  { by apply has_id_true. }
  destruct (findIndex_lookup _ _ _ Hfind)
    as (before & Hlook & Hmatch & Hfirst).
  exists i, before, (apply_update body before),
    (mkStore true (Some (<[i := apply_update body before]> tickets))).
  split; [by apply put_ticket_at|].
  split; [done|].
  split; [apply has_id_true in Hmatch; congruence|].
  split.
  { intros j earlier Hj Hearlier Heq.
    specialize (Hfirst j earlier Hj Hearlier).
    apply has_id_false in Hfirst. congruence. }
  split; [done|].
  split; [apply apply_update_id|].
  split; [apply apply_update_created_at|].
  unfold apply_update, overwritten_if_supplied.
  destruct (Body.title body), (Body.description body), (Body.type body),
    (Body.area body), (Body.status body) as [s|];
    simpl; try destruct (includes validStatuses s) eqn:Hs; simpl;
    repeat split; try done; intros v [= <-]; congruence.
Qed.

Lemma put_overwrites_exactly_supplied_fields_witness :
  ∃ i before after st',
    put_ticket "1700000000000"
      (Body.mk (Some (JStr "Toner")) (Some JNull) None None
               (Some (JStr "in-progress")))
      sample_store
    = (respond 200 (TicketObject after), st')
    ∧ [vpn_ticket; printer_ticket; badge_ticket] !! i = Some before
    ∧ Ticket.id before = Ticket.id printer_ticket
    ∧ (∀ j earlier, (j < i)%nat →
         [vpn_ticket; printer_ticket; badge_ticket] !! j = Some earlier →
         Ticket.id earlier ≠ Ticket.id printer_ticket)
    ∧ getTickets st'
      = Resolved (<[i := after]> [vpn_ticket; printer_ticket; badge_ticket])
    ∧ Ticket.id after = Ticket.id before
    ∧ Ticket.created_at after = Ticket.created_at before
    ∧ overwritten_if_supplied (Some (JStr "Toner"))
        (Ticket.title before) (Ticket.title after)
    ∧ overwritten_if_supplied (Some JNull)
        (Ticket.description before) (Ticket.description after)
    ∧ overwritten_if_supplied None (Ticket.type before) (Ticket.type after)
    ∧ overwritten_if_supplied None (Ticket.area before) (Ticket.area after)
    ∧ (∀ v, Some (JStr "in-progress") = Some v →
            includes validStatuses v = true → Ticket.status after = v)
    ∧ (∀ v, Some (JStr "in-progress") = Some v →
            includes validStatuses v = false →
            Ticket.status after = Ticket.status before)
    ∧ (Some (JStr "in-progress") = None →
       Ticket.status after = Ticket.status before).
Proof.
  apply (put_overwrites_exactly_supplied_fields sample_store
           [vpn_ticket; printer_ticket; badge_ticket]
           "1700000000000" printer_ticket
           (Body.mk (Some (JStr "Toner")) (Some JNull) None None
                    (Some (JStr "in-progress")))).
  - reflexivity.
  - apply list_elem_of_further, list_elem_of_here.
  - reflexivity.
Defined.

(** ** The status invariant *)

Lemma apply_update_status_valid body ticket :
  includes validStatuses (Ticket.status ticket) = true →
  includes validStatuses (Ticket.status (apply_update body ticket)) = true.
Proof.
  intros Hold. unfold apply_update.
  destruct (Body.title body), (Body.description body), (Body.type body),
    (Body.area body), (Body.status body) as [s|];
    simpl; try destruct (includes validStatuses s) eqn:Hs; simpl; done.
Qed.

Lemma handle_statuses_valid r st tickets :
  getTickets st = Resolved tickets →
  statuses_valid tickets →
  ∃ tickets',
    getTickets (handle r st).2 = Resolved tickets' ∧ statuses_valid tickets'.
Proof.
  intros Hget Hvalid.
  pose proof (getTickets_connected _ _ Hget) as Hconn.
  destruct r as [|body now_id now_created|id body|id]; simpl.
  - exists tickets. unfold get_tickets. by rewrite Hget.
  - unfold post_ticket.
    destruct (Body.title body) as [title|]; [|by exists tickets].
    destruct (truthy title); simpl; [|by exists tickets].
    rewrite Hget. simpl. rewrite (saveTickets_connected _ _ Hconn). simpl.
    eexists. split; [reflexivity|].
    apply Forall_app. split; [done|]. by repeat constructor.
  - destruct (put_ticket_store st tickets id body Hget)
      as [Hsame|(i & ticket & _ & Hlook & Hput)]; [by exists tickets|].
    eexists. split; [exact Hput|].
    apply Forall_insert; [done|]. apply apply_update_status_valid.
    unfold statuses_valid in Hvalid. rewrite Forall_forall in Hvalid.
    apply Hvalid. by eapply list_elem_of_lookup_2.
  - unfold delete_ticket. rewrite Hget. simpl.
    destruct (findIndex (has_id id) tickets); [|by exists tickets].
    simpl. rewrite (saveTickets_connected _ _ Hconn). simpl.
    eexists. split; [reflexivity|].
    unfold statuses_valid in *. rewrite Forall_forall in *.
    intros t [Ht _]%elem_of_bool_filter. by apply Hvalid.
Qed.

(** X4. The status of a stored ticket is always one of ["open"],
    ["in-progress"] and ["closed"]: every request keeps a collection
    with that property in it, and so every collection the service
    reaches from the absent key has it. *)
Theorem statuses_stay_valid :
  (∀ r st tickets,
     getTickets st = Resolved tickets →
     statuses_valid tickets →
     ∃ tickets',
       getTickets (handle r st).2 = Resolved tickets'
       ∧ statuses_valid tickets')
  ∧ (∀ st,
       reachable st →
       ∃ tickets,
         getTickets st = Resolved tickets
         ∧ ∀ t, t ∈ tickets →
             Ticket.status t = JStr "open"
             ∨ Ticket.status t = JStr "in-progress"
             ∨ Ticket.status t = JStr "closed").
Proof.
  split; [exact handle_statuses_valid|].
  intros st Hreach.
  assert (∃ tickets, getTickets st = Resolved tickets ∧ statuses_valid tickets)
    as (tickets & Hget & Hvalid).
  { induction Hreach as [|st r _ (tickets & Hget & Hvalid) _].
    - exists []. split; [reflexivity|constructor].
    - by apply (handle_statuses_valid r st tickets). }
  exists tickets. split; [done|].
  intros t Ht. apply includes_validStatuses.
  unfold statuses_valid in Hvalid. rewrite Forall_forall in Hvalid.
  by apply Hvalid.
Qed.

(** ** Delete: what is left *)

Lemma bool_filter_sublist {A : Type} (p : A → bool) (l : list A) :
  sublist (List.filter p l) l.
Proof.
  induction l as [|a l IH]; simpl; [constructor|].
  destruct (p a); by constructor.
Qed.

Lemma findIndex_after_filter id tickets :
  findIndex (has_id id) (List.filter (λ t, negb (has_id id t)) tickets) = None.
Proof.
  apply findIndex_None. intros t [_ Ht]%elem_of_bool_filter.
  by apply negb_true_iff.
Qed.

(** X5. Deleting is not repeatable: once a DELETE of an id has
    succeeded, a second DELETE of the same id answers 404 and leaves
    the store as the first one left it. *)
Theorem delete_twice_is_404 st tickets id target :
  getTickets st = Resolved tickets →
  target ∈ tickets →
  parseInt id = Some (Ticket.id target) →
  ∃ st',
    delete_ticket id st
    = (respond 200 (MessageObject "Ticket deleted successfully"), st')
    ∧ delete_ticket id st'
      = (respond 404 (ErrorObject "Ticket not found"), st').
Proof.
  intros Hget Hin Hid.
  destruct (findIndex_found (has_id id) tickets target Hin) as [i Hi].
  { by apply has_id_true. }
  eexists. split; [by eapply delete_ticket_found|].
  unfold delete_ticket. simpl. by rewrite findIndex_after_filter.
Qed.

Lemma delete_twice_is_404_witness :
  ∃ st',
    delete_ticket "1700000060000" sample_store
    = (respond 200 (MessageObject "Ticket deleted successfully"), st')
    ∧ delete_ticket "1700000060000" st'
      = (respond 404 (ErrorObject "Ticket not found"), st').
Proof.
  apply (delete_twice_is_404 sample_store
           [vpn_ticket; printer_ticket; badge_ticket]
           "1700000060000" vpn_ticket).
  - reflexivity.
  - apply list_elem_of_here.
  - reflexivity.
Defined.

(** X6. A successful DELETE keeps every ticket with another id, and
    nothing else, in the order the tickets were stored in. *)
Theorem delete_keeps_the_others_in_order st tickets id target :
  getTickets st = Resolved tickets →
  target ∈ tickets →
  parseInt id = Some (Ticket.id target) →
  ∃ tickets',
    getTickets (delete_ticket id st).2 = Resolved tickets'
    ∧ sublist tickets' tickets
    ∧ ∀ t, t ∈ tickets' ↔ t ∈ tickets ∧ Ticket.id t ≠ Ticket.id target.
Proof.
  intros Hget Hin Hid.
  destruct (findIndex_found (has_id id) tickets target Hin) as [i Hi].
  { by apply has_id_true. }
  exists (List.filter (λ t, negb (has_id id t)) tickets).
  split; [by rewrite (delete_ticket_found st tickets id i)|].
  split; [apply bool_filter_sublist|].
  intros t. rewrite elem_of_bool_filter, negb_true_iff, has_id_false, Hid.
  split; intros [Ht Hne]; (split; [done|congruence]).
Qed.

Lemma delete_keeps_the_others_in_order_witness :
  ∃ tickets',
    getTickets (delete_ticket "1700000000000" sample_store).2
    = Resolved tickets'
    ∧ sublist tickets' [vpn_ticket; printer_ticket; badge_ticket]
    ∧ ∀ t, t ∈ tickets'
           ↔ t ∈ [vpn_ticket; printer_ticket; badge_ticket]
             ∧ Ticket.id t ≠ Ticket.id printer_ticket.
Proof.
  apply (delete_keeps_the_others_in_order sample_store
           [vpn_ticket; printer_ticket; badge_ticket]
           "1700000000000" printer_ticket).
  - reflexivity.
  - apply list_elem_of_further, list_elem_of_here.
  - reflexivity.
Defined.

(** ** Create composed with the other handlers *)

Lemma filter_has_id_absent id tickets :
  (∀ t, t ∈ tickets → has_id id t = false) →
  List.filter (λ t, negb (has_id id t)) tickets = tickets.
Proof.
  induction tickets as [|a l IH]; intros Hnone; simpl; [done|].
  rewrite (Hnone a (list_elem_of_here _ _)). simpl. f_equal. apply IH.
  intros t Ht. apply Hnone. by apply list_elem_of_further.
Qed.

(** X7. Create followed by Delete is the identity on the collection
    when the id handed out was not in use: after a POST that read a
    clock value different from every stored id, a DELETE of that id
    answers 200 and persists exactly the collection from before the
    POST. *)
Theorem post_then_delete_restores
    st tickets body s now_id now_created id :
  getTickets st = Resolved tickets →
  Body.title body = Some (JStr s) →
  s ≠ "" →
  now_id ∉ ids tickets →
  parseInt id = Some now_id →
  ∃ created st' st'',
    post_ticket body now_id now_created st
    = (respond 201 (TicketObject created), st')
    ∧ delete_ticket id st'
      = (respond 200 (MessageObject "Ticket deleted successfully"), st'')
    ∧ getTickets st'' = Resolved tickets.
Proof.
  intros Hget Htitle Hs Hfresh Hid.
  set (created := newTicket (JStr s) body now_id now_created).
  exists created, (mkStore true (Some (tickets ++ [created]))).
  eexists.
  split.
  { apply post_ticket_created; [done..|]. by apply truthy_nonempty. }
  assert (has_id id created = true) as Hmatch by by apply has_id_true.
  destruct (findIndex_found (has_id id) (tickets ++ [created]) created)
    as [i Hi]; [apply elem_of_app; right; apply list_elem_of_here|done|].
  split; [by eapply delete_ticket_found|].
  unfold getTickets. simpl. f_equal.
  rewrite List.filter_app. simpl. rewrite Hmatch. simpl.
  rewrite app_nil_r. apply filter_has_id_absent.
  intros t Ht. apply has_id_false. rewrite Hid. intros [= Heq].
  apply Hfresh. unfold ids. apply list_elem_of_fmap. by exists t.
Qed.

Lemma post_then_delete_restores_witness :
  ∃ created st' st'',
    post_ticket (title_only "Monitor flickers") 1700000180000 1700000180001
      sample_store
    = (respond 201 (TicketObject created), st')
    ∧ delete_ticket "1700000180000" st'
      = (respond 200 (MessageObject "Ticket deleted successfully"), st'')
    ∧ getTickets st'' = Resolved [vpn_ticket; printer_ticket; badge_ticket].
Proof.
  apply (post_then_delete_restores sample_store
           [vpn_ticket; printer_ticket; badge_ticket]
           (title_only "Monitor flickers") "Monitor flickers").
  - reflexivity.
  - reflexivity.
  - discriminate.
  - apply (bool_decide_unpack _). vm_compute. exact I.
  - reflexivity.
Defined.

Lemma create_all_stored calls : ∀ st tickets,
  getTickets st = Resolved tickets →
  Forall (λ call : CreateCall, js_not (Body.title call.1.1) = false) calls →
  ∃ created,
    getTickets (create_all calls st) = Resolved (tickets ++ created)
    ∧ length created = length calls
    ∧ Ticket.title <$> created
      = (λ call : CreateCall, default JNull (Body.title call.1.1)) <$> calls.
Proof.
  induction calls as [|[[body now_id] now_created] calls IH];
    intros st tickets Hget Hok.
  { exists []. by rewrite app_nil_r. }
  apply Forall_cons in Hok as [Hbody Hok]. simpl in Hbody.
  destruct (Body.title body) as [title|] eqn:Htitle; [|done].
  simpl in Hbody. apply negb_false_iff in Hbody.
  destruct (IH (mkStore true
                  (Some (tickets ++ [newTicket title body now_id now_created])))
              _ eq_refl Hok) as (created & Hall & Hlen & Htitles).
  exists (newTicket title body now_id now_created :: created).
  split; [|split].
  - unfold create_all in *. simpl.
    rewrite (post_ticket_created st tickets body title) by done. simpl.
    by rewrite Hall, <-app_assoc.
  - simpl. by rewrite Hlen.
  - rewrite !fmap_cons, Htitles. simpl. by rewrite Htitle.
Qed.

(** X8. Creating N tickets and then listing returns N tickets more
    than were stored before: after any sequence of create requests
    with accepted titles, List answers 200 with an array whose length
    is the earlier length plus the number of requests, and which holds
    every title that was sent. *)
Theorem creates_then_list_returns_all st tickets calls :
  getTickets st = Resolved tickets →
  Forall (λ call : CreateCall, js_not (Body.title call.1.1) = false) calls →
  ∃ listed,
    (get_tickets (create_all calls st)).1 = respond 200 (TicketArray listed)
    ∧ length listed = (length tickets + length calls)%nat
    ∧ ∀ call, call ∈ calls →
        ∃ t, t ∈ listed ∧ Body.title call.1.1 = Some (Ticket.title t).
Proof.
  intros Hget Hok.
  destruct (create_all_stored calls st tickets Hget Hok)
    as (created & Hall & Hlen & Htitles).
  exists (Array_sort by_created_at_desc (tickets ++ created)).
  split; [unfold get_tickets; by rewrite Hall|].
  split; [by rewrite Array_sort_perm, length_app, Hlen|].
  intros call Hcall.
  assert (default JNull (Body.title call.1.1) ∈ Ticket.title <$> created)
    as (t & Ht & Hin)%list_elem_of_fmap.
  { rewrite Htitles. apply list_elem_of_fmap. by exists call. }
  exists t. split.
  - rewrite Array_sort_perm. apply elem_of_app. by right.
  - rewrite Forall_forall in Hok. specialize (Hok call Hcall).
    destruct (Body.title call.1.1); [simpl in Ht; by subst|done].
Qed.

Lemma creates_then_list_returns_all_witness :
  ∃ listed,
    (get_tickets (create_all three_creates empty_store)).1
    = respond 200 (TicketArray listed)
    ∧ length listed = (length (@nil Ticket.t) + length three_creates)%nat
    ∧ ∀ call, call ∈ three_creates →
        ∃ t, t ∈ listed ∧ Body.title call.1.1 = Some (Ticket.title t).
Proof.
  apply (creates_then_list_returns_all empty_store [] three_creates).
  - reflexivity.
  - repeat constructor.
Defined.

(** ** List: ties, and the place of a new ticket *)

Lemma SortCompare_created x y tx ty :
  created x = Some tx → created y = Some ty →
  SortCompare by_created_at_desc x y = ty - tx.
Proof.
  intros Hx Hy. unfold SortCompare, by_created_at_desc.
  fold (created x) (created y). by rewrite Hx, Hy.
Qed.

(** An insertion only jumps over strictly newer tickets, so it never
    reorders tickets of one instant. *)
Lemma filter_instant_sort_insert tv x l :
  is_Some (created x) →
  dates_valid l →
  List.filter (created_at_is tv) (sort_insert by_created_at_desc x l)
  = if created_at_is tv x
    then x :: List.filter (created_at_is tv) l
    else List.filter (created_at_is tv) l.
Proof.
  intros [tx Hx] Hvalid.
  assert (created_at_is tv x = (tx =? tv)) as Hcx.
  { unfold created_at_is. by rewrite Hx. }
  induction l as [|y l IH]; simpl.
  { by destruct (created_at_is tv x). }
  apply Forall_cons in Hvalid as [[ty Hy] Hvalid].
  assert (created_at_is tv y = (ty =? tv)) as Hcy.
  { unfold created_at_is. by rewrite Hy. }
  rewrite (SortCompare_created x y tx ty) by done.
  destruct (Z.ltb_spec 0 (ty - tx)) as [Hlt|Hge]; simpl.
  - rewrite (IH Hvalid), Hcx, Hcy.
    destruct (Z.eqb_spec ty tv), (Z.eqb_spec tx tv); try done; lia.
  - by destruct (created_at_is tv x).
Qed.

Lemma filter_instant_Array_sort tv l :
  dates_valid l →
  List.filter (created_at_is tv) (Array_sort by_created_at_desc l)
  = List.filter (created_at_is tv) l.
Proof.
  unfold Array_sort. induction l as [|x l IH]; intros Hvalid; simpl; [done|].
  apply Forall_cons in Hvalid as [Hx Hvalid].
  rewrite filter_instant_sort_insert; [|done|].
  - by rewrite (IH Hvalid).
  - unfold dates_valid. fold (Array_sort by_created_at_desc l).
    by rewrite Array_sort_perm.
Qed.

(** X9. Tickets created in the same millisecond are listed in the
    order in which they are stored: for every instant, the tickets of
    that instant appear in the answer of List in stored order. *)
Theorem get_keeps_ties_in_stored_order st tickets :
  getTickets st = Resolved tickets →
  dates_valid tickets →
  ∃ listed,
    get_tickets st = (respond 200 (TicketArray listed), st)
    ∧ ∀ tv,
        List.filter (created_at_is tv) listed
        = List.filter (created_at_is tv) tickets.
Proof.
  intros Hget Hvalid. eexists.
  split; [unfold get_tickets; by rewrite Hget|].
  intros tv. by apply filter_instant_Array_sort.
Qed.

Lemma get_keeps_ties_in_stored_order_witness :
  ∃ listed,
    get_tickets store_after_second_create
    = (respond 200 (TicketArray listed), store_after_second_create)
    ∧ ∀ tv,
        List.filter (created_at_is tv) listed
        = List.filter (created_at_is tv) [printer_created; vpn_created].
Proof.
  apply (get_keeps_ties_in_stored_order store_after_second_create
           [printer_created; vpn_created]).
  - reflexivity.
  - repeat constructor; by eexists.
Defined.

(** A ticket newer than all the others sorts to the front. *)
Lemma foldr_sort_insert_newest x tx l rest :
  created x = Some tx →
  (∀ t, t ∈ l → ∃ tv, created t = Some tv ∧ tv < tx) →
  foldr (sort_insert by_created_at_desc) (x :: rest) l
  = x :: foldr (sort_insert by_created_at_desc) rest l.
Proof.
  intros Hx. induction l as [|y l IH]; intros Holder; simpl; [done|].
  rewrite IH by (intros t Ht; apply Holder; by apply list_elem_of_further).
  destruct (Holder y (list_elem_of_here _ _)) as (ty & Hy & Hlt).
  simpl. rewrite (SortCompare_created y x ty tx) by done.
  destruct (Z.ltb_spec 0 (tx - ty)); [done|lia].
Qed.

Lemma Array_sort_snoc_newest x tx l :
  created x = Some tx →
  (∀ t, t ∈ l → ∃ tv, created t = Some tv ∧ tv < tx) →
  Array_sort by_created_at_desc (l ++ [x])
  = x :: Array_sort by_created_at_desc l.
Proof.
  intros Hx Holder. unfold Array_sort. rewrite foldr_app. simpl.
  by apply (foldr_sort_insert_newest x tx).
Qed.

Lemma created_newTicket title body now_id now_created :
  four_digit_year now_created →
  created (newTicket title body now_id now_created) = Some now_created.
Proof. intros Hclock. unfold created. simpl. by apply Date_parse_toISOString. Qed.

(** X10. A ticket created at a clock reading later than the created_at
    of every stored ticket is the first element of the next List, in
    front of the earlier listing. *)
Theorem post_newest_is_listed_first st tickets body s now_id now_created :
  getTickets st = Resolved tickets →
  Body.title body = Some (JStr s) →
  s ≠ "" →
  four_digit_year now_created →
  (∀ t, t ∈ tickets → ∃ tv, created t = Some tv ∧ tv < now_created) →
  ∃ new listed st',
    post_ticket body now_id now_created st
    = (respond 201 (TicketObject new), st')
    ∧ get_tickets st = (respond 200 (TicketArray listed), st)
    ∧ get_tickets st' = (respond 200 (TicketArray (new :: listed)), st').
Proof.
  intros Hget Htitle Hs Hclock Holder.
  exists (newTicket (JStr s) body now_id now_created),
    (Array_sort by_created_at_desc tickets),
    (mkStore true
       (Some (tickets ++ [newTicket (JStr s) body now_id now_created]))).
  split.
  { apply post_ticket_created; [done..|]. by apply truthy_nonempty. }
  split; [unfold get_tickets; by rewrite Hget|].
  unfold get_tickets. simpl.
  by rewrite (Array_sort_snoc_newest _ now_created)
    by (by apply created_newTicket || done).
Qed.

Lemma post_newest_is_listed_first_witness :
  ∃ new listed st',
    post_ticket (title_only "Monitor flickers") 1700000180000 1700000180001
      sample_store
    = (respond 201 (TicketObject new), st')
    ∧ get_tickets sample_store
      = (respond 200 (TicketArray listed), sample_store)
    ∧ get_tickets st' = (respond 200 (TicketArray (new :: listed)), st').
Proof.
  apply (post_newest_is_listed_first sample_store
           [vpn_ticket; printer_ticket; badge_ticket]
           (title_only "Monitor flickers") "Monitor flickers").
  - reflexivity.
  - reflexivity.
  - discriminate.
  - unfold four_digit_year. lia.
  - intros t Ht.
    repeat (apply elem_of_cons in Ht as [->|Ht];
            [eexists; split; [vm_compute; reflexivity|reflexivity]|]).
    by apply elem_of_nil in Ht.
Defined.

(** ** Sorting commutes with what the other handlers do *)

Lemma sort_insert_front x tx l :
  created x = Some tx →
  (∀ z, z ∈ l → ∃ tz, created z = Some tz ∧ tz ≤ tx) →
  sort_insert by_created_at_desc x l = x :: l.
Proof.
  intros Hx Hall. destruct l as [|y l']; [done|]. simpl.
  destruct (Hall y (list_elem_of_here _ _)) as (ty & Hy & Hle).
  rewrite (SortCompare_created x y tx ty) by done.
  destruct (Z.ltb_spec 0 (ty - tx)); [lia|done].
Qed.

(** On a sorted array, inserting and filtering can be done in either
    order. *)
Lemma filter_sort_insert (p : Ticket.t → bool) x l :
  is_Some (created x) →
  dates_valid l →
  StronglySorted not_older l →
  List.filter p (sort_insert by_created_at_desc x l)
  = if p x
    then sort_insert by_created_at_desc x (List.filter p l)
    else List.filter p l.
Proof.
  intros [tx Hx] Hvalid Hsorted.
  induction Hsorted as [|y l Hsorted IH Hy].
  { simpl. by destruct (p x). }
  apply Forall_cons in Hvalid as [[ty Hty] Hvalid].
  cbn [sort_insert]. rewrite (SortCompare_created x y tx ty) by done.
  destruct (Z.ltb_spec 0 (ty - tx)) as [Hlt|Hge].
  - cbn [List.filter]. rewrite (IH Hvalid).
    destruct (p y), (p x); try done.
    cbn [sort_insert]. rewrite (SortCompare_created x y tx ty) by done.
    destruct (Z.ltb_spec 0 (ty - tx)); [done|lia].
  - change (List.filter p (x :: y :: l))
      with (if p x then x :: List.filter p (y :: l)
            else List.filter p (y :: l)).
    destruct (p x); [|done].
    symmetry. apply (sort_insert_front x tx); [done|].
    intros z [Hz _]%elem_of_bool_filter.
    apply elem_of_cons in Hz as [->|Hz]; [exists ty; split; [done|lia]|].
    rewrite Forall_forall in Hy.
    destruct (Hy z Hz) as (ty' & tz & Hty' & Htz & Hle).
    exists tz. split; [done|]. assert (ty' = ty) by congruence. lia.
Qed.

Lemma Array_sort_filter (p : Ticket.t → bool) l :
  dates_valid l →
  Array_sort by_created_at_desc (List.filter p l)
  = List.filter p (Array_sort by_created_at_desc l).
Proof.
  induction l as [|x l IH]; intros Hvalid; [done|].
  apply Forall_cons in Hvalid as [Hx Hvalid].
  change (Array_sort by_created_at_desc (x :: l))
    with (sort_insert by_created_at_desc x (Array_sort by_created_at_desc l)).
  rewrite filter_sort_insert; [|done| |by apply Array_sort_sorted].
  - cbn [List.filter]. destruct (p x); [|by apply IH].
    change (Array_sort by_created_at_desc (x :: List.filter p l))
      with (sort_insert by_created_at_desc x
              (Array_sort by_created_at_desc (List.filter p l))).
    by rewrite (IH Hvalid).
  - unfold dates_valid. by rewrite Array_sort_perm.
Qed.


(** * The id in the URL *)

Lemma code_digit_char d : 0 ≤ d ≤ 9 → code (digit_char d) = 48 + d.
Proof.
  intros Hd.
  assert (d = 0 ∨ d = 1 ∨ d = 2 ∨ d = 3 ∨ d = 4 ∨ d = 5 ∨ d = 6 ∨ d = 7
          ∨ d = 8 ∨ d = 9) as Hcases by lia.
  repeat (destruct Hcases as [->|Hcases]); [..|subst d]; reflexivity.
Qed.

Lemma decimal_digits_digit_string fuel : ∀ n acc,
  digit_string acc → digit_string (decimal_digits fuel n acc).
Proof.
  induction fuel as [|fuel IH]; intros n acc Hacc; simpl; [done|].
  assert (digit_string (String (digit_char (n mod 10)) acc)) as Hacc'.
  { constructor; [|done]. rewrite code_digit_char; Z.div_mod_to_equations; lia. }
  destruct (n / 10 =? 0); [done|by apply IH].
Qed.

Lemma decimal_digits_nonempty fuel : ∀ n acc,
  fuel ≠ O ∨ acc ≠ EmptyString →
  decimal_digits fuel n acc ≠ EmptyString.
Proof.
  induction fuel as [|fuel IH]; intros n acc Hne; simpl; [by destruct Hne|].
  destruct (n / 10 =? 0); [done|]. apply IH. by right.
Qed.

(** Reading the digits of [n] continues an accumulator [v] to
    [v * 10^k + n], where [k] is the number of digits. *)
Lemma digits_prefix_decimal_digits fuel : ∀ n acc a,
  0 ≤ n < 2 ^ Z.of_nat (S fuel) →
  ∃ k, 0 ≤ k
       ∧ digits_prefix 10 (decimal_digits (S fuel) n acc) a
         = digits_prefix 10 acc (Some (default 0 a * 10 ^ k + n)).
Proof.
  assert (∀ n acc a, 0 ≤ n →
            digits_prefix 10 (String (digit_char (n mod 10)) acc) a
            = digits_prefix 10 acc (Some (default 0 a * 10 + n mod 10)))
    as Hstep.
  { intros n acc a Hn. simpl. unfold digit_value.
    assert (0 ≤ n mod 10 ≤ 9) as Hd by (Z.div_mod_to_equations; lia).
    rewrite (code_digit_char _ Hd).
    destruct (Z.leb_spec 48 (48 + n mod 10)); [|lia].
    destruct (Z.leb_spec (48 + n mod 10) 57); [|lia]. simpl.
    replace (48 + n mod 10 - 48) with (n mod 10) by lia.
    destruct (Z.ltb_spec (n mod 10) 10); [done|lia]. }
  induction fuel as [|fuel IH]; intros n acc a Hn.
  - exists 1. split; [lia|]. simpl decimal_digits.
    assert (n / 10 = 0) as Hsmall.
    { change (2 ^ Z.of_nat 1) with 2 in Hn. Z.div_mod_to_equations. lia. }
    rewrite Hsmall. simpl (0 =? 0). cbv iota. rewrite Hstep by lia.
    do 2 f_equal. Z.div_mod_to_equations. lia.
  - change (decimal_digits (S (S fuel)) n acc)
      with (if n / 10 =? 0 then String (digit_char (n mod 10)) acc
            else decimal_digits (S fuel) (n / 10)
                   (String (digit_char (n mod 10)) acc)).
    destruct (Z.eqb_spec (n / 10) 0) as [Hsmall|Hbig].
    + exists 1. split; [lia|]. rewrite Hstep by lia.
      do 2 f_equal. Z.div_mod_to_equations. lia.
    + destruct (IH (n / 10) (String (digit_char (n mod 10)) acc) a)
        as (k & Hk & Heq).
      { rewrite Nat2Z.inj_succ, Z.pow_succ_r in Hn by lia.
        Z.div_mod_to_equations. lia. }
      exists (k + 1). split; [lia|]. rewrite Heq, Hstep by lia.
      do 2 f_equal. simpl default. rewrite Z.pow_add_r by lia.
      Z.div_mod_to_equations. lia.
Qed.

Lemma parseInt_digit_string s :
  s ≠ EmptyString → digit_string s →
  parseInt s = digits_prefix 10 s None.
Proof.
  intros Hne Hdigits. destruct s as [|c rest]; [done|].
  apply Forall_cons in Hdigits as [Hc Hrest].
  unfold parseInt. simpl skip_white.
  assert (is_white c = false) as ->.
  { unfold is_white.
    repeat match goal with
           | |- context [?a =? ?b] => destruct (Z.eqb_spec a b); [lia|]
           end. done. }
  destruct (Z.eqb_spec (code c) 45); [lia|].
  destruct (Z.eqb_spec (code c) 43); [lia|].
  destruct rest as [|x rest].
  { cbv beta iota zeta.
    destruct (digits_prefix 10 _ None) as [m|]; [f_equal; lia|done]. }
  simpl in Hrest. apply Forall_cons in Hrest as [Hx _].
  assert (is_x x = false) as ->.
  { unfold is_x.
    destruct (Z.eqb_spec (code x) 120); [lia|].
    destruct (Z.eqb_spec (code x) 88); [lia|done]. }
  rewrite andb_false_r. cbv beta iota zeta.
  destruct (digits_prefix 10 _ None) as [m|]; [f_equal; lia|done].
Qed.

Lemma parseInt_minus_digit_string s :
  s ≠ EmptyString → digit_string s →
  parseInt (String "-"%char s) = Z.opp <$> digits_prefix 10 s None.
Proof.
  intros Hne Hdigits. destruct s as [|c rest]; [done|].
  apply Forall_cons in Hdigits as [Hc Hrest].
  unfold parseInt. simpl skip_white.
  cbv beta iota zeta.
  assert ((code "-"%char =? 45) = true) as -> by reflexivity.
  destruct rest as [|x rest].
  { cbv beta iota zeta.
    destruct (digits_prefix 10 _ None) as [m|]; [change (Z.opp <$> Some m) with (Some (- m)); f_equal; lia|done]. }
  simpl in Hrest. apply Forall_cons in Hrest as [Hx _].
  assert (is_x x = false) as ->.
  { unfold is_x.
    destruct (Z.eqb_spec (code x) 120); [lia|].
    destruct (Z.eqb_spec (code x) 88); [lia|done]. }
  rewrite andb_false_r. cbv beta iota zeta.
  destruct (digits_prefix 10 _ None) as [m|]; [change (Z.opp <$> Some m) with (Some (- m)); f_equal; lia|done].
Qed.

Lemma decimal_digits_value n :
  0 ≤ n →
  digits_prefix 10
    (decimal_digits (S (Z.to_nat (Z.log2 n))) n EmptyString) None
  = Some n.
Proof.
  intros Hn.
  destruct (digits_prefix_decimal_digits (Z.to_nat (Z.log2 n)) n
              EmptyString None) as (k & _ & ->); [|done].
  split; [done|].
  rewrite Nat2Z.inj_succ, Z2Nat.id by apply Z.log2_nonneg.
  destruct (Z.eq_dec n 0) as [->|Hpos]; [done|].
  apply Z.log2_spec. lia.
Qed.

Lemma parseInt_Number_toString n : parseInt (Number_toString n) = Some n.
Proof.
  unfold Number_toString. destruct (Z.ltb_spec n 0) as [Hneg|Hpos].
  - rewrite parseInt_minus_digit_string.
    + replace (Z.abs n) with (- n) by lia.
      rewrite decimal_digits_value by lia. simpl. f_equal. lia.
    + apply decimal_digits_nonempty. by left.
    + apply decimal_digits_digit_string. constructor.
  - rewrite parseInt_digit_string.
    + replace (Z.abs n) with n by lia. by apply decimal_digits_value.
    + apply decimal_digits_nonempty. by left.
    + apply decimal_digits_digit_string. constructor.
Qed.

(** X11. The id a page script writes into the path of an update or a
    delete is the id the server looks up: for a safe integer id (below
    2^53 in absolute value, where the digits written by the template
    literal and the number read by [parseInt] are exact) the handlers'
    test [t.id === parseInt(id)] on the segment written for [${id}]
    holds exactly for the tickets with that id. *)
Theorem id_in_path_selects_that_id n t :
  safe_integer n →
  has_id (id_segment (Some n)) t = true ↔ Ticket.id t = n.
Proof.
  intros Hsafe. rewrite has_id_true. simpl.
  rewrite parseInt_Number_toString.
  split; [by intros [= ->]|by intros ->].
Qed.

Lemma id_in_path_selects_that_id_witness :
  has_id (id_segment (Some 1700000060000)) vpn_ticket = true
  ↔ Ticket.id vpn_ticket = 1700000060000.
Proof.
  apply (id_in_path_selects_that_id 1700000060000 vpn_ticket).
  split; reflexivity.
Defined.

(** * The page controller against the server *)

Lemma fetchTickets_connected c st tickets :
  getTickets st = Resolved tickets →
  fetchTickets (c, st)
  = (with_tickets (Array_sort by_created_at_desc tickets) c, st).
Proof. intros Hget. unfold fetchTickets, get_tickets. simpl. by rewrite Hget. Qed.

Lemma has_id_Number_toString n t :
  has_id (Number_toString n) t = (Ticket.id t =? n).
Proof. unfold has_id. by rewrite parseInt_Number_toString. Qed.

(** X12. After [deleteTicket] of a safe integer id (below 2^53 in
    absolute value), whether the dialog was confirmed or not and
    whether the server deleted or refused, a cache that showed the
    server's listing still shows it: fetching again would give the
    cache the page already has. *)
Theorem client_delete_matches_refetch c st tickets n confirmed :
  getTickets st = Resolved tickets →
  dates_valid tickets →
  allTickets c = Array_sort by_created_at_desc tickets →
  safe_integer n →
  allTickets (fetchTickets (deleteTicket n confirmed (c, st))).1
  = allTickets (deleteTicket n confirmed (c, st)).1.
Proof.
  intros Hget Hvalid Hcache Hsafe.
  unfold deleteTicket. destruct confirmed; simpl negb; cbv iota.
  2: { by rewrite (fetchTickets_connected c st tickets). }
  cbn [id_segment].
  destruct (findIndex (has_id (Number_toString n)) tickets) as [i|] eqn:Hfind.
  - cbn [fst snd].
    rewrite (delete_ticket_found st tickets _ i Hget Hfind).
    cbn -[Array_sort List.filter fetchTickets].
    erewrite fetchTickets_connected by reflexivity.
    cbn [stored fst allTickets with_tickets].
    rewrite Array_sort_filter, Hcache by done.
    apply List.filter_ext. intros t. by rewrite has_id_Number_toString.
  - unfold delete_ticket. cbn [fst snd]. rewrite Hget.
    cbn -[Array_sort fetchTickets]. rewrite Hfind.
    cbn -[Array_sort fetchTickets].
    by rewrite (fetchTickets_connected c st tickets).
Qed.

Lemma client_delete_matches_refetch_witness :
  allTickets
    (fetchTickets (deleteTicket 1700000060000 true (loaded_client, sample_store))).1
  = allTickets (deleteTicket 1700000060000 true (loaded_client, sample_store)).1.
Proof.
  apply (client_delete_matches_refetch loaded_client sample_store
           [vpn_ticket; printer_ticket; badge_ticket]).
  - reflexivity.
  - repeat constructor; by eexists.
  - reflexivity.
  - split; reflexivity.
Defined.








(** X21. The edit mode is read again when the response arrives.  If
    the dialog is closed while an update request is pending, the
    server still rewrites the ticket and answers 200, but the page
    takes the create branch: it puts the saved record in front of the
    cache and keeps the record it had, so the cache holds two records
    of the edited id and one ticket more than a new fetch returns. *)
Theorem closing_during_update_duplicates_ticket
    c st tickets n before title description type area now_id now_created :
  getTickets st = Resolved tickets →
  isEditing c = true →
  editingId c = Some n →
  safe_integer n →
  allTickets c = Array_sort by_created_at_desc tickets →
  before ∈ tickets →
  Ticket.id before = n →
  ∃ saved st',
    formRequest title description type area now_id now_created c st
    = (respond 200 (TicketObject saved), st')
    ∧ Ticket.id saved = n
    ∧ formResponse (respond 200 (TicketObject saved)) (closeModal c)
      = mkClient (saved :: allTickets c) (currentFilter c) false None
    ∧ before ∈ allTickets c
    ∧ length
        (allTickets
           (formResponse (respond 200 (TicketObject saved)) (closeModal c)))
      = S (length
             (allTickets
                (fetchTickets
                   (formResponse (respond 200 (TicketObject saved))
                      (closeModal c),
                    st')).1)).
Proof.
  intros Hget Hmode Hediting Hsafe Hcache Hin Hid.
  set (body := form_body title description type area).
  unfold formRequest. rewrite Hmode, Hediting. fold body. cbn [id_segment].
  destruct (findIndex_found (has_id (Number_toString n)) tickets before Hin)
    as [i Hfind].
  { rewrite has_id_Number_toString. by apply Z.eqb_eq. }
  destruct (findIndex_lookup _ _ _ Hfind) as (first & Hlook & Hmatch & _).
  rewrite has_id_Number_toString in Hmatch. apply Z.eqb_eq in Hmatch.
  exists (apply_update body first),
    (mkStore true (Some (<[i := apply_update body first]> tickets))).
  split; [by apply put_ticket_at|].
  split; [by rewrite apply_update_id|].
  split; [reflexivity|].
  split; [rewrite Hcache, Array_sort_perm; done|].
  erewrite fetchTickets_connected by reflexivity.
  change (formResponse (respond 200 (TicketObject (apply_update body first)))
            (closeModal c))
    with (mkClient (apply_update body first :: allTickets c)
            (currentFilter c) false None).
  unfold with_tickets. cbn [fst allTickets stored length].
  by rewrite Hcache, !Array_sort_perm, length_insert.
Qed.

Lemma closing_during_update_duplicates_ticket_witness :
  ∃ saved st',
    formRequest "Printer jam again" "Tray 3" "Hardware" "Office" 0 0
      (openModal (Some 1700000000000) loaded_client) sample_store
    = (respond 200 (TicketObject saved), st')
    ∧ Ticket.id saved = 1700000000000
    ∧ formResponse (respond 200 (TicketObject saved))
        (closeModal (openModal (Some 1700000000000) loaded_client))
      = mkClient
          (saved :: allTickets (openModal (Some 1700000000000) loaded_client))
          (currentFilter (openModal (Some 1700000000000) loaded_client))
          false None
    ∧ printer_ticket
      ∈ allTickets (openModal (Some 1700000000000) loaded_client)
    ∧ length
        (allTickets
           (formResponse (respond 200 (TicketObject saved))
              (closeModal (openModal (Some 1700000000000) loaded_client))))
      = S (length
             (allTickets
                (fetchTickets
                   (formResponse (respond 200 (TicketObject saved))
                      (closeModal
                         (openModal (Some 1700000000000) loaded_client)),
                    st')).1)).
Proof.
  apply (closing_during_update_duplicates_ticket
           (openModal (Some 1700000000000) loaded_client) sample_store
           [vpn_ticket; printer_ticket; badge_ticket] 1700000000000
           printer_ticket).
  - reflexivity.
  - reflexivity.
  - reflexivity.
  - split; reflexivity.
  - reflexivity.
  - apply list_elem_of_further, list_elem_of_here.
  - reflexivity.
Defined.

Lemma filteredTickets_cons tab t l :
  tab ≠ "all" →
  filteredTickets tab (t :: l)
  = if status_is tab t then t :: filteredTickets tab l
    else filteredTickets tab l.
Proof.
  intros Htab. unfold filteredTickets. simpl.
  by destruct (String.eqb_spec tab "all").
Qed.

(** X15. Under the three status tabs every ticket of a collection with
    valid statuses is shown exactly once, and the tab [all] shows the
    whole cache: the three filtered lists have as many tickets
    together as the cache, and each shows only tickets of its
    status. *)
Theorem status_tabs_partition tickets :
  statuses_valid tickets →
  filteredTickets "all" tickets = tickets
  ∧ (length (filteredTickets "open" tickets)
     + length (filteredTickets "in-progress" tickets)
     + length (filteredTickets "closed" tickets)
     = length tickets)%nat
  ∧ ∀ tab t, tab ≠ "all" →
      t ∈ filteredTickets tab tickets ↔ t ∈ tickets ∧ Ticket.status t = JStr tab.
Proof.
  intros Hvalid. split; [|split].
  - unfold filteredTickets. simpl.
    induction tickets as [|t l IH]; [done|]. simpl. f_equal. apply IH.
    by apply Forall_cons in Hvalid as [_ ?].
  - induction Hvalid as [|t l Ht _ IH]; [done|].
    apply includes_validStatuses in Ht.
    rewrite !filteredTickets_cons by done. unfold status_is.
    destruct Ht as [->|[->| ->]];
      repeat match goal with
             | |- context [String.eqb ?a ?b] =>
                 let v := eval vm_compute in (String.eqb a b) in
                 change (String.eqb a b) with v
             end;
      cbn [length]; lia.
  - intros tab t Htab. unfold filteredTickets.
    rewrite elem_of_bool_filter.
    destruct (String.eqb_spec tab "all"); [done|].
    unfold status_is.
    destruct (Ticket.status t) as [| | |s| |];
      try (split; [by intros [_ ?]|by intros [_ ?]]).
    destruct (String.eqb_spec s tab) as [->|Hne].
    + split; intros [Hin _]; by split.
    + split; [by intros [_ ?]|intros [_ [= ?]]; done].
Qed.

Lemma status_tabs_partition_witness :
  filteredTickets "all" [vpn_ticket; printer_ticket; badge_ticket]
  = [vpn_ticket; printer_ticket; badge_ticket]
  ∧ (length (filteredTickets "open" [vpn_ticket; printer_ticket; badge_ticket])
     + length (filteredTickets "in-progress"
                 [vpn_ticket; printer_ticket; badge_ticket])
     + length (filteredTickets "closed"
                 [vpn_ticket; printer_ticket; badge_ticket])
     = length [vpn_ticket; printer_ticket; badge_ticket])%nat
  ∧ ∀ tab t, tab ≠ "all" →
      t ∈ filteredTickets tab [vpn_ticket; printer_ticket; badge_ticket]
      ↔ t ∈ [vpn_ticket; printer_ticket; badge_ticket]
        ∧ Ticket.status t = JStr tab.
Proof.
  apply (status_tabs_partition [vpn_ticket; printer_ticket; badge_ticket]).
  repeat constructor.
Defined.

(** * [escapeHtml] *)

Lemma string_append_assoc (s1 s2 s3 : string) :
  String.append s1 (String.append s2 s3)
  = String.append (String.append s1 s2) s3.
Proof. induction s1 as [|a s1 IH]; [done|]. simpl. by rewrite IH. Qed.

Lemma replace_all_append c by_ s1 s2 :
  replace_all c by_ (String.append s1 s2)
  = String.append (replace_all c by_ s1) (replace_all c by_ s2).
Proof.
  induction s1 as [|a s1 IH]; [done|]. cbn [String.append replace_all].
  rewrite IH. destruct (Ascii.eqb a c); [|done].
  apply string_append_assoc.
Qed.

Lemma list_ascii_of_string_append s1 s2 :
  list_ascii_of_string (String.append s1 s2)
  = list_ascii_of_string s1 ++ list_ascii_of_string s2.
Proof. induction s1 as [|a s1 IH]; [done|]. simpl. by rewrite IH. Qed.

(** The five replacements, in source order, amount to one pass. *)
Lemma replacements_escape_string s :
  replace_all "'"%char "&#039;"
    (replace_all dquote "&quot;"
       (replace_all ">"%char "&gt;"
          (replace_all "<"%char "&lt;"
             (replace_all "&"%char "&amp;" s))))
  = escape_string s.
Proof.
  induction s as [|a s IH]; [done|].
  cbn [escape_string]. rewrite <-IH. unfold escape_char.
  cbn [replace_all].
  destruct (Ascii.eqb_spec a "&"%char) as [->|Hamp].
  { by rewrite !replace_all_append. }
  cbn [replace_all].
  destruct (Ascii.eqb_spec a "<"%char) as [->|Hlt].
  { by rewrite !replace_all_append. }
  cbn [replace_all].
  destruct (Ascii.eqb_spec a ">"%char) as [->|Hgt].
  { by rewrite !replace_all_append. }
  cbn [replace_all].
  destruct (Ascii.eqb_spec a dquote) as [->|Hquot].
  { by rewrite !replace_all_append. }
  cbn [replace_all].
  by destruct (Ascii.eqb_spec a "'"%char) as [->|Hapos].
Qed.

(** X17. The five global replacements of [escapeHtml] do not interfere
    with one another: the result is the text with every character
    replaced on its own, [&] by [&amp;], [<] by [&lt;], [>] by [&gt;],
    the double quote by [&quot;], the apostrophe by [&#039;], and
    every other character kept.  In particular the [&] of an entity
    written for another character is not escaped again. *)
Theorem escapeHtml_is_one_pass text : escapeHtml text = escape_string text.
Proof.
  unfold escapeHtml. destruct (String.eqb_spec text EmptyString) as [->|_].
  - reflexivity.
  - apply replacements_escape_string.
Qed.

Lemma escape_char_no_markup a :
  Forall (λ c, markup_char c = false) (list_ascii_of_string (escape_char a)).
Proof.
  unfold escape_char.
  destruct (Ascii.eqb_spec a "&"%char); [by repeat constructor|].
  destruct (Ascii.eqb a "<"%char) eqn:Hlt; [by repeat constructor|].
  destruct (Ascii.eqb a ">"%char) eqn:Hgt; [by repeat constructor|].
  destruct (Ascii.eqb a dquote) eqn:Hquot; [by repeat constructor|].
  destruct (Ascii.eqb a "'"%char) eqn:Hapos; [by repeat constructor|].
  constructor; [|constructor]. unfold markup_char.
  by rewrite Hlt, Hgt, Hquot, Hapos.
Qed.

(** X16. What [escapeHtml] returns contains none of the characters
    [<], [>], the double quote and the apostrophe, whatever the text:
    put between tags or inside a quoted attribute it cannot open a
    tag or close the attribute. *)
Theorem escapeHtml_has_no_markup text :
  Forall (λ c, markup_char c = false) (list_ascii_of_string (escapeHtml text)).
Proof.
  unfold escapeHtml. destruct (String.eqb text EmptyString); [constructor|].
  rewrite replacements_escape_string.
  induction text as [|a text IH]; [constructor|].
  cbn [escape_string]. rewrite list_ascii_of_string_append.
  apply Forall_app. split; [apply escape_char_no_markup|exact IH].
Qed.

(** * More on ids in paths, dates and failures *)

Lemma is_x_digit c : 48 ≤ code c ≤ 57 → is_x c = false.
Proof.
  intros Hc. unfold is_x.
  destruct (Z.eqb_spec (code c) 120); [lia|].
  destruct (Z.eqb_spec (code c) 88); [lia|done].
Qed.

Lemma parseInt_digit_head c rest :
  48 ≤ code c ≤ 57 →
  head_not_x rest →
  parseInt (String c rest) = digits_prefix 10 (String c rest) None.
Proof.
  intros Hc Hrest. unfold parseInt. simpl skip_white.
  assert (is_white c = false) as ->.
  { unfold is_white.
    repeat match goal with
           | |- context [?a =? ?b] => destruct (Z.eqb_spec a b); [lia|]
           end. done. }
  destruct (Z.eqb_spec (code c) 45); [lia|].
  destruct (Z.eqb_spec (code c) 43); [lia|].
  destruct rest as [|x rest].
  { cbv beta iota zeta.
    destruct (digits_prefix 10 _ None) as [m|]; [f_equal; lia|done]. }
  simpl in Hrest. rewrite Hrest, andb_false_r. cbv beta iota zeta.
  destruct (digits_prefix 10 _ None) as [m|]; [f_equal; lia|done].
Qed.

Lemma decimal_digits_head fuel : ∀ n acc,
  head_not_x acc →
  ∃ d r, 0 ≤ d ≤ 9
         ∧ decimal_digits (S fuel) n acc = String (digit_char d) r
         ∧ head_not_x r.
Proof.
  induction fuel as [|fuel IH]; intros n acc Hacc.
  - exists (n mod 10), acc. split; [Z.div_mod_to_equations; lia|].
    split; [|done]. simpl. by destruct (n / 10 =? 0).
  - change (decimal_digits (S (S fuel)) n acc)
      with (if n / 10 =? 0 then String (digit_char (n mod 10)) acc
            else decimal_digits (S fuel) (n / 10)
                   (String (digit_char (n mod 10)) acc)).
    destruct (n / 10 =? 0).
    + exists (n mod 10), acc. split; [Z.div_mod_to_equations; lia|done].
    + apply IH. simpl. apply is_x_digit.
      rewrite code_digit_char; Z.div_mod_to_equations; lia.
Qed.

Lemma decimal_digits_append fuel : ∀ n acc,
  decimal_digits fuel n acc
  = String.append (decimal_digits fuel n EmptyString) acc.
Proof.
  induction fuel as [|fuel IH]; intros n acc; [done|].
  cbn [decimal_digits]. destruct (n / 10 =? 0); [done|].
  rewrite (IH _ (String _ acc)), (IH _ (String _ EmptyString)).
  by rewrite <-string_append_assoc.
Qed.

(** X20. [parseInt] stops at the first character that is not a digit,
    so the handlers accept a path segment that only starts with an id:
    for a safe integer id [0 <= n < 2^53], where the digits read back
    as the same number, the segment made of the decimal digits of [n]
    followed by text that begins with a character other than a digit,
    [x] or [X] selects exactly the tickets with id [n]. *)
Theorem id_with_trailing_text_selects_that_id n c rest t :
  0 ≤ n < 2 ^ 53 →
  ¬ (48 ≤ code c ≤ 57) →
  is_x c = false →
  has_id (String.append (Number_toString n) (String c rest)) t = true
  ↔ Ticket.id t = n.
Proof.
  intros [Hn _] Hc Hx. rewrite has_id_true.
  assert (parseInt (String.append (Number_toString n) (String c rest))
          = Some n) as ->; [|split; [by intros [= ->]|by intros ->]].
  unfold Number_toString. destruct (Z.ltb_spec n 0); [lia|].
  rewrite <-decimal_digits_append. replace (Z.abs n) with n by lia.
  set (fuel := Z.to_nat (Z.log2 n)).
  destruct (digits_prefix_decimal_digits fuel n (String c rest) None)
    as (k & _ & Hvalue).
  { split; [done|]. unfold fuel.
    rewrite Nat2Z.inj_succ, Z2Nat.id by apply Z.log2_nonneg.
    destruct (Z.eq_dec n 0) as [->|Hpos]; [done|].
    apply Z.log2_spec. lia. }
  assert (digits_prefix 10 (String c rest) (Some n) = Some n) as Hstop.
  { simpl. unfold digit_value.
    destruct ((48 <=? code c) && (code c <=? 57)) eqn:Hdigit.
    { apply andb_true_iff in Hdigit as [?%Z.leb_le ?%Z.leb_le]. lia. }
    destruct ((97 <=? code c) && (code c <=? 122)) eqn:Hlower.
    { apply andb_true_iff in Hlower as [?%Z.leb_le ?%Z.leb_le].
      destruct (Z.ltb_spec (code c - 87) 10); [lia|done]. }
    destruct ((65 <=? code c) && (code c <=? 90)) eqn:Hupper; [|done].
    apply andb_true_iff in Hupper as [?%Z.leb_le ?%Z.leb_le].
    destruct (Z.ltb_spec (code c - 55) 10); [lia|done]. }
  destruct (decimal_digits_head fuel n (String c rest) Hx)
    as (d & r & Hd & Heq & Hr).
  rewrite Heq, parseInt_digit_head, <-Heq, Hvalue; [|rewrite code_digit_char; lia|done].
  simpl default. rewrite Z.mul_0_l, Z.add_0_l. exact Hstop.
Qed.

Lemma id_with_trailing_text_selects_that_id_witness :
  has_id (String.append (Number_toString 1700000060000) (String "a"%char "bc"))
    vpn_ticket = true
  ↔ Ticket.id vpn_ticket = 1700000060000.
Proof.
  apply (id_with_trailing_text_selects_that_id 1700000060000 "a"%char "bc"
           vpn_ticket).
  - lia.
  - vm_compute. intros [_ H]. by apply H.
  - reflexivity.
Defined.

(** X19. The instant at which List sorts a ticket is the clock reading
    Create took for it: for a reading that [toISOString] writes with a
    four-digit year, the created_at of the created record, read by
    [new Date], is that reading. *)
Theorem post_created_at_reads_back st tickets body s now_id now_created :
  getTickets st = Resolved tickets →
  Body.title body = Some (JStr s) →
  s ≠ "" →
  four_digit_year now_created →
  ∃ new st',
    post_ticket body now_id now_created st
    = (respond 201 (TicketObject new), st')
    ∧ Date_parse (Ticket.created_at new) = Some now_created.
Proof.
  intros Hget Htitle Hs Hclock.
  exists (newTicket (JStr s) body now_id now_created). eexists.
  split.
  { apply post_ticket_created; [done..|]. by apply truthy_nonempty. }
  by apply created_newTicket.
Qed.

Lemma post_created_at_reads_back_witness :
  ∃ new st',
    post_ticket (title_only "Monitor flickers") 1700000180000 1700000180001
      sample_store
    = (respond 201 (TicketObject new), st')
    ∧ Date_parse (Ticket.created_at new) = Some 1700000180001.
Proof.
  apply (post_created_at_reads_back sample_store
           [vpn_ticket; printer_ticket; badge_ticket]
           (title_only "Monitor flickers") "Monitor flickers").
  - reflexivity.
  - reflexivity.
  - discriminate.
  - unfold four_digit_year. lia.
Defined.

(** X18. While the store cannot be reached, nothing the page does
    changes its state: loading, submitting the form in either mode and
    deleting all leave the cache, the filter and the edit mode as they
    were, and the store too. *)
Theorem client_unchanged_while_store_down c st :
  connected st = false →
  fetchTickets (c, st) = (c, st)
  ∧ (∀ id confirmed, deleteTicket id confirmed (c, st) = (c, st))
  ∧ (∀ title description type area now_id now_created,
       handleFormSubmit title description type area now_id now_created (c, st)
       = (c, st)).
Proof.
  intros Hdown.
  assert (getTickets st = Rejected client_closed) as Hget.
  { unfold getTickets. by rewrite Hdown. }
  split; [|split].
  - unfold fetchTickets, get_tickets. simpl. by rewrite Hget.
  - intros id [|]; [|done].
    unfold deleteTicket, delete_ticket. simpl. by rewrite Hget.
  - intros title description type area now_id now_created.
    unfold handleFormSubmit, formRequest. cbn [fst snd].
    destruct (isEditing c).
    + unfold put_ticket. by rewrite Hget.
    + unfold post_ticket. simpl.
      destruct (String.eqb title EmptyString); simpl; [done|].
      by rewrite Hget.
Qed.

Lemma client_unchanged_while_store_down_witness :
  fetchTickets (loaded_client, mkStore false (Some [printer_ticket]))
  = (loaded_client, mkStore false (Some [printer_ticket]))
  ∧ (∀ id confirmed,
       deleteTicket id confirmed
         (loaded_client, mkStore false (Some [printer_ticket]))
       = (loaded_client, mkStore false (Some [printer_ticket])))
  ∧ (∀ title description type area now_id now_created,
       handleFormSubmit title description type area now_id now_created
         (loaded_client, mkStore false (Some [printer_ticket]))
       = (loaded_client, mkStore false (Some [printer_ticket]))).
Proof.
  apply (client_unchanged_while_store_down loaded_client
           (mkStore false (Some [printer_ticket]))).
  reflexivity.
Defined.

Lemma statuses_stay_valid_witness :
  ∃ tickets,
    getTickets store_after_second_create = Resolved tickets
    ∧ ∀ t, t ∈ tickets →
        Ticket.status t = JStr "open"
        ∨ Ticket.status t = JStr "in-progress"
        ∨ Ticket.status t = JStr "closed".
Proof.
  apply (proj2 statuses_stay_valid store_after_second_create).
  apply store_after_second_create_reachable.
Defined.

(** X22. Ids that are safe integers are an invariant of the service:
    Create takes the id from the clock, whose readings are time values
    (at most 8.64e15 in absolute value, below 2^53), Update leaves the
    id as it is and Delete only removes tickets.  So every request
    served at such a clock reading keeps a collection of safe integer
    ids one. *)
Theorem ids_stay_safe r st tickets :
  getTickets st = Resolved tickets →
  ids_safe tickets →
  (∀ body now_id now_created,
     r = CreateTicket body now_id now_created → time_value now_id) →
  ∃ tickets',
    getTickets (handle r st).2 = Resolved tickets' ∧ ids_safe tickets'.
Proof.
  intros Hget Hsafe Hclock.
  pose proof (getTickets_connected _ _ Hget) as Hconn.
  destruct r as [|body now_id now_created|id body|id]; simpl.
  - exists tickets. unfold get_tickets. by rewrite Hget.
  - unfold post_ticket.
    destruct (Body.title body) as [title|]; [|by exists tickets].
    destruct (truthy title); simpl; [|by exists tickets].
    rewrite Hget. simpl. rewrite (saveTickets_connected _ _ Hconn). simpl.
    eexists. split; [reflexivity|].
    apply Forall_app. split; [done|].
    constructor; [|constructor]. unfold newTicket. simpl.
    specialize (Hclock body now_id now_created eq_refl).
    unfold time_value in Hclock. unfold safe_integer. lia.
  - destruct (put_ticket_store st tickets id body Hget)
      as [Hsame|(i & ticket & _ & Hlook & Hput)]; [by exists tickets|].
    eexists. split; [exact Hput|].
    apply Forall_insert; [done|]. rewrite apply_update_id.
    unfold ids_safe in Hsafe. rewrite Forall_forall in Hsafe.
    apply Hsafe. by eapply list_elem_of_lookup_2.
  - unfold delete_ticket. rewrite Hget. simpl.
    destruct (findIndex (has_id id) tickets); [|by exists tickets].
    simpl. rewrite (saveTickets_connected _ _ Hconn). simpl.
    eexists. split; [reflexivity|].
    unfold ids_safe in *. rewrite Forall_forall in *.
    intros t [Ht _]%elem_of_bool_filter. by apply Hsafe.
Qed.

Lemma ids_stay_safe_witness :
  ∃ tickets',
    getTickets
      (handle
         (CreateTicket (title_only "Monitor flickers") 1700000120000
            1700000120000)
         sample_store).2
    = Resolved tickets'
    ∧ ids_safe tickets'.
Proof.
  apply (ids_stay_safe
           (CreateTicket (title_only "Monitor flickers") 1700000120000
              1700000120000)
           sample_store [vpn_ticket; printer_ticket; badge_ticket]).
  - reflexivity.
  - repeat constructor; reflexivity.
  - intros body now_id now_created [= _ <- _]. unfold time_value. lia.
Defined.

(** ** Exact integers and doubles *)

Example nearest_double_above_2_53 :
  nearest_double 9007199254740993 = 9007199254740992
  ∧ nearest_double 9007199254740995 = 9007199254740996
  ∧ nearest_double 1700000000000 = 1700000000000.
Proof. repeat split; reflexivity. Qed.

(** A number that is not a safe integer stays out of the safe range
    when it is rounded. *)
Lemma nearest_double_large n :
  2 ^ 53 ≤ Z.abs n → 2 ^ 53 ≤ Z.abs (nearest_double n).
Proof.
  intros Hlarge. unfold nearest_double.
  destruct (Z.ltb_spec (Z.abs n) (2 ^ 53)) as [|_]; [lia|].
  set (a := Z.abs n) in *.
  assert (0 < a) as Hpos by lia.
  destruct (Z.log2_spec a Hpos) as [Hlow _].
  assert (53 ≤ Z.log2 a) as Hlog.
  { apply Z.log2_le_pow2; lia. }
  set (e := Z.log2 a - 52).
  assert (0 < 2 ^ e) as Hpow by (apply Z.pow_pos_nonneg; lia).
  assert (2 ^ 52 ≤ a / 2 ^ e) as Hq.
  { apply Z.div_le_lower_bound; [done|].
    rewrite <-Z.pow_add_r by lia. by replace (e + 52) with (Z.log2 a) by lia. }
  assert (2 * 2 ^ 1 ≤ 2 * 2 ^ e) as Hmin.
  { apply Z.mul_le_mono_nonneg_l; [lia|]. apply Z.pow_le_mono_r; lia. }
  set (q := if _ : bool then a / 2 ^ e + 1 else a / 2 ^ e).
  assert (2 ^ 52 ≤ q) as Hq'.
  { unfold q. destruct (_ || _); lia. }
  assert (2 ^ 53 ≤ q * 2 ^ e) as Hvalue.
  { change (2 ^ 53) with (2 ^ 52 * 2 ^ 1).
    apply Z.mul_le_mono_nonneg; lia. }
  assert (Z.sgn n = 1 ∨ Z.sgn n = -1) as [-> | ->] by lia; lia.
Qed.

(** X23. On a ticket whose id is a safe integer, the handlers' test
    [t.id === parseInt(id)] gives the same answer whether [parseInt]
    is read as the integer the digits denote, as [has_id] does, or as
    the double nearest to it, as the engine does. *)
Theorem exact_and_double_reading_agree id t :
  safe_integer (Ticket.id t) →
  strict_eq_num (Ticket.id t) (nearest_double <$> parseInt id) = has_id id t.
Proof.
  intros Hsafe. unfold has_id, strict_eq_num, safe_integer in *.
  destruct (parseInt id) as [m|]; [|done]. simpl.
  destruct (Z.ltb_spec (Z.abs m) (2 ^ 53)) as [Hsmall|Hlarge].
  - unfold nearest_double.
    by destruct (Z.ltb_spec (Z.abs m) (2 ^ 53)); [|lia].
  - pose proof (nearest_double_large m Hlarge).
    destruct (Z.eqb_spec (Ticket.id t) (nearest_double m)),
      (Z.eqb_spec (Ticket.id t) m); try done; lia.
Qed.

Lemma exact_and_double_reading_agree_witness :
  strict_eq_num (Ticket.id printer_ticket)
    (nearest_double <$> parseInt "9007199254740993")
  = has_id "9007199254740993" printer_ticket.
Proof.
  apply (exact_and_double_reading_agree "9007199254740993" printer_ticket).
  split; reflexivity.
Defined.
